(** * flanker.addresslib.address: address model, parsing and validation

    A shallow embedding of [flanker/addresslib/address.py] (Python 2).

    Conventions of the embedding.
    - Text.  A [str] is its bytes; a [unicode] object is represented by its
      UTF-8 encoding, so [.encode('utf-8')] and [.decode('utf-8')] are the
      identity on the representation.  [len] of a [unicode] object counts
      code points (a wide build), i.e. the bytes that are not UTF-8
      continuation bytes.
    - Effects.  [time.time()], and the mail-exchanger lookup (network, cache)
      act on an abstract [World]; exceptions are explicit ([Outcome]).
      Logging is not modelled.
    - Collaborators.  The lexer/grammar engine, the preparser, the MX lookup,
      the plugin registry and the quoting and MIME helpers live in other
      modules of the package; they are parameters ([Collaborators]), as are
      the primitives of the Python runtime ([PyRuntime]).
    - Fixed-key dictionaries ([mtimes], [mx_metrics]) are records. *)

From Stdlib Require Import String Ascii List ZArith NArith Bool Lia.
Import ListNotations.

Local Open Scope string_scope.
Local Open Scope Z_scope.

Set Warnings "-register-all".

(** ** Python values *)

(** The exception classes that occur in the module. [UnicodeError] is what
    the [idna] codec and implicit ASCII decoding raise; [ValueError] is the
    one [EmailAddress.to_ace] raises itself. *)
Inductive exn : Type :=
| SyntaxError
| ValueError
| UnicodeError
| AttributeError
| TypeError
| IndexError.

Inductive Outcome (A : Type) : Type :=
| Ret (a : A)
| Raise (e : exn).
Arguments Ret {A} a.
Arguments Raise {A} e.

(** [basestring]: a byte string or a unicode string (held as UTF-8). *)
Inductive basestring : Type :=
| Str (bytes : string)
| Unicode (utf8 : string).

(** class EmailAddress: [_display_name], [_local_part], [_domain]. *)
Record EmailAddress : Type := mkEmailAddress {
  display_name : string;
  local_part : string;
  domain : string
}.

(** class UrlAddress: [_address]. *)
Record UrlAddress : Type := mkUrlAddress {
  url_address : string
}.

(** The values that reach the functions of the module.  [PyAddressList c]
    is an [AddressList] whose [container] is [c]. *)
Inductive PyVal : Type :=
| PyNone
| PyBool (b : bool)
| PyInt (n : Z)
| PyText (t : basestring)
| PyList (items : list PyVal)
| PyTuple (items : list PyVal)
| PyEmail (e : EmailAddress)
| PyUrl (u : UrlAddress)
| PyAddressList (container : list PyVal).

(** ** Text primitives *)

Fixpoint len_from (acc : Z) (s : string) : Z :=
  match s with
  | EmptyString => acc
  | String _ s' => len_from (acc + 1) s'
  end.

(** [len] of a byte string. *)
Definition bytes_len (s : string) : Z := len_from 0 s.

(** A UTF-8 continuation byte, 10xxxxxx. *)
Definition is_continuation (c : ascii) : bool :=
  let n := N_of_ascii c in (128 <=? n)%N && (n <? 192)%N.

Fixpoint codepoints_from (acc : Z) (s : string) : Z :=
  match s with
  | EmptyString => acc
  | String c s' =>
      codepoints_from (if is_continuation c then acc else acc + 1) s'
  end.

(** [len(x)] for a [str] or [unicode] object. *)
Definition py_len (t : basestring) : Z :=
  match t with
  | Str s => bytes_len s
  | Unicode s => codepoints_from 0 s
  end.

(** [x.encode('utf-8')] for [unicode], [x] itself for [str]. *)
Definition encode_utf8 (t : basestring) : string :=
  match t with
  | Str s => s
  | Unicode s => s
  end.

Definition is_empty (s : string) : bool :=
  match s with
  | EmptyString => true
  | String _ _ => false
  end.

(** [sep.join(parts)]. *)
Fixpoint join (sep : string) (parts : list string) : string :=
  match parts with
  | [] => ""
  | [p] => p
  | p :: rest => p ++ sep ++ join sep rest
  end.

Definition is_ascii_char (c : ascii) : bool := (N_of_ascii c <? 128)%N.

Fixpoint all_ascii (s : string) : bool :=
  match s with
  | EmptyString => true
  | String c s' => is_ascii_char c && all_ascii s'
  end.

(** Modelled from the spec: [flanker.utils.is_pure_ascii], which is not in
    this module.  The spec describes [requires_non_ascii] as the test
    whether the local part contains non-ASCII characters; on a text value
    that is the test that every byte of its UTF-8 form is below 128. *)
Definition is_pure_ascii (s : string) : bool := all_ascii s.

(** Truth value of an object ([if x:]).  [EmailAddress] and [UrlAddress]
    define neither [__nonzero__] nor [__len__] and are always true;
    [AddressList] defines [__len__]. *)
Definition truthy (v : PyVal) : bool :=
  match v with
  | PyNone => false
  | PyBool b => b
  | PyInt n => negb (n =? 0)
  | PyText t => negb (is_empty (encode_utf8 t))
  | PyList l => match l with [] => false | _ => true end
  | PyTuple l => match l with [] => false | _ => true end
  | PyEmail _ => true
  | PyUrl _ => true
  | PyAddressList c => match c with [] => false | _ => true end
  end.

(** [x is None], [x is False]. *)
Definition is_None (v : PyVal) : bool :=
  match v with PyNone => true | _ => false end.

Definition is_False (v : PyVal) : bool :=
  match v with PyBool false => true | _ => false end.

(** ** Constants *)

Definition MAX_ADDRESS_LENGTH : Z := 1024.
Definition MAX_ADDRESS_NUMBER : Z := 1024.
Definition MAX_ADDRESS_LIST_LENGTH : Z := MAX_ADDRESS_LENGTH * MAX_ADDRESS_NUMBER.

(** ** The state and exception monad *)

Definition M (W A : Type) : Type := W -> Outcome A * W.

Definition ret {W A} (a : A) : M W A := fun w => (Ret a, w).

Definition raise {W A} (e : exn) : M W A := fun w => (Raise e, w).

Definition bind {W A B} (m : M W A) (k : A -> M W B) : M W B :=
  fun w =>
    match m w with
    | (Ret a, w') => k a w'
    | (Raise e, w') => (Raise e, w')
    end.

Definition lift_outcome {W A} (o : Outcome A) : M W A := fun w => (o, w).

Notation "x <- m ;; k" := (bind m (fun x => k))
  (at level 61, m at next level, right associativity).
Notation "' p <- m ;; k" := (bind m (fun x => let p := x in k))
  (at level 61, p pattern, m at next level, right associativity).

(** ** Results of the grammar engine *)

(** The parsers of [flanker.addresslib.parser] the module uses. *)
Inductive Grammar : Type :=
| addr_spec_parser
| mailbox_or_url_parser
| mailbox_or_url_list_parser.

(** What [parser.parse] returns: a [Mailbox], a [Url], a list, or something
    else (e.g. [None]). *)
Inductive SyntaxTree : Type :=
| Mailbox (m_display_name m_local_part m_domain : string)
| Url (u_address : string)
| TreeList (items : list SyntaxTree)
| NoTree.

(** [parser.parse] either returns a tree or raises one of the three
    exceptions that [parse] catches. *)
Inductive ParseOutcome : Type :=
| Parsed (t : SyntaxTree)
| LexError
| YaccError
| GrammarSyntaxError.

(** Induction on trees, with the hypothesis for every item of a list. *)
Section SyntaxTree_induction.

Variable P : SyntaxTree -> Prop.
Hypothesis P_mailbox : forall dn lp dom, P (Mailbox dn lp dom).
Hypothesis P_url : forall a, P (Url a).
Hypothesis P_list : forall items, Forall P items -> P (TreeList items).
Hypothesis P_none : P NoTree.

Fixpoint SyntaxTree_nested_ind (t : SyntaxTree) : P t :=
  match t with
  | Mailbox dn lp dom => P_mailbox dn lp dom
  | Url a => P_url a
  | TreeList items =>
      P_list items
        ((fix all (l : list SyntaxTree) : Forall P l :=
            match l with
            | [] => Forall_nil P
            | x :: l' => Forall_cons x (SyntaxTree_nested_ind x) (all l')
            end) items)
  | NoTree => P_none
  end.

End SyntaxTree_induction.

(** ** Metrics records *)

Record ParseMetrics (Time : Type) : Type := mkParseMetrics {
  pm_parsing : Time
}.
Arguments mkParseMetrics {Time}.
Arguments pm_parsing {Time}.

Record MxMetrics (Time : Type) : Type := mkMxMetrics {
  mxm_mx_lookup : Time;
  mxm_dns_lookup : Time;
  mxm_mx_conn : Time
}.
Arguments mkMxMetrics {Time}.
Arguments mxm_mx_lookup {Time}.
Arguments mxm_dns_lookup {Time}.
Arguments mxm_mx_conn {Time}.

Record ValidateMetrics (Time : Type) : Type := mkValidateMetrics {
  vm_parsing : Time;
  vm_mx_lookup : Time;
  vm_dns_lookup : Time;
  vm_mx_conn : Time;
  vm_custom_grammar : Time
}.
Arguments mkValidateMetrics {Time}.
Arguments vm_parsing {Time}.
Arguments vm_mx_lookup {Time}.
Arguments vm_dns_lookup {Time}.
Arguments vm_mx_conn {Time}.
Arguments vm_custom_grammar {Time}.

(** The shapes of the tuples the list functions return: without and with
    the unparsed (rejected) items. *)
Inductive ListResult (Mt : Type) : Type :=
| OnlyParsed (parsed : PyVal) (mtimes : Mt)
| WithUnparsed (parsed : PyVal) (unparsed : list PyVal) (mtimes : Mt).
Arguments OnlyParsed {Mt}.
Arguments WithUnparsed {Mt}.

(** ** Runtime and collaborators *)

Definition Exchanger : Type := string.

(** A provider plugin: its [validate] function. *)
Record Plugin : Type := mkPlugin {
  plugin_validate : string -> PyVal
}.

(** Primitives of the Python runtime: the clock, float arithmetic on
    elapsed times (the literal [0] is [tzero]), [unicode.lower], [hash] of
    a string and the [idna] codec ([None] when it raises [UnicodeError]). *)
Class PyRuntime (World Time : Type) : Type := {
  time_time : World -> Time * World;
  tzero : Time;
  tadd : Time -> Time -> Time;
  tsub : Time -> Time -> Time;
  unicode_lower : string -> string;
  py_hash : string -> Z;
  idna_encode : string -> option string
}.

(** The other modules of the package the code calls:
    [flanker.addresslib.parser] (with a fresh lexer clone per call),
    [flanker.addresslib.validate], [flanker.addresslib.quote] and
    [flanker.mime.message.headers.encoding]. *)
Class Collaborators (World Time : Type) : Type := {
  parser_parse : Grammar -> string -> ParseOutcome;
  preparse_address : PyVal -> Outcome (option (list string));
  mail_exchanger_lookup :
    string -> World -> (option Exchanger * MxMetrics Time) * World;
  plugin_for_esp : Exchanger -> option Plugin;
  smart_quote : string -> string;
  smart_unquote : string -> string;
  encode_string : string -> Z -> string
}.

(** ** The module *)

Section Address.

Context {World Time : Type}.
Context {RT : PyRuntime World Time}.
Context {CO : Collaborators World Time}.

Local Abbreviation M := (M World).

(** [time.time()]. *)
Definition now : M Time := fun w => let (t, w') := time_time w in (Ret t, w').

(** *** class EmailAddress *)

(** [EmailAddress(display_name=.., local_part=.., domain=..)]: the branch
    of [__init__] taken when neither raw argument is given. *)
Definition EmailAddress_init (display_name local_part domain : string)
  : Outcome EmailAddress :=
  if negb (is_empty local_part) && negb (is_empty domain)
  then Ret (mkEmailAddress display_name local_part domain)
  else Raise SyntaxError.

(** The [address] property: [u'{}@{}'.format(local_part, domain.lower())]. *)
Definition address (self : EmailAddress) : string :=
  local_part self ++ "@" ++ unicode_lower (domain self).

Definition requires_non_ascii (self : EmailAddress) : bool :=
  negb (is_pure_ascii (local_part self)).

Definition contains_non_ascii (self : EmailAddress) : bool :=
  negb (is_pure_ascii (address self)).

Definition to_unicode (self : EmailAddress) : string :=
  if negb (is_empty (display_name self))
  then display_name self ++ " <" ++ local_part self ++ "@" ++ domain self ++ ">"
  else local_part self ++ "@" ++ domain self.

(** Formatting a byte string into a unicode template decodes it as ASCII. *)
Definition ascii_decode (s : string) : Outcome string :=
  if all_ascii s then Ret s else Raise UnicodeError.

Definition to_ace (self : EmailAddress) : Outcome string :=
  if negb (is_pure_ascii (local_part self)) then Raise ValueError
  else
    match idna_encode (unicode_lower (domain self)) with
    | None => Raise UnicodeError
    | Some ace_domain =>
        if negb (is_empty (display_name self)) then
          let ace_display_name :=
            smart_quote (encode_string (display_name self) MAX_ADDRESS_LENGTH) in
          match ascii_decode ace_display_name, ascii_decode ace_domain with
          | Ret n, Ret d =>
              Ret (n ++ " <" ++ local_part self ++ "@" ++ d ++ ">")
          | Raise e, _ => Raise e
          | _, Raise e => Raise e
          end
        else
          match ascii_decode ace_domain with
          | Ret d => Ret (local_part self ++ "@" ++ d)
          | Raise e => Raise e
          end
    end.

Definition full_spec (self : EmailAddress) : Outcome string :=
  if requires_non_ascii self
  then Ret (to_unicode self)
  else to_ace self.

Definition EmailAddress_hash (self : EmailAddress) : Z :=
  py_hash (unicode_lower (address self)).

(** *** class UrlAddress *)

Definition UrlAddress_init (address : string) : Outcome UrlAddress :=
  if negb (is_empty address) then Ret (mkUrlAddress address)
  else Raise SyntaxError.

Definition UrlAddress_hash (self : UrlAddress) : Z :=
  py_hash (url_address self).

(** [other.address]: defined for the two address classes only. *)
Definition getattr_address (v : PyVal) : Outcome string :=
  match v with
  | PyEmail e => Ret (address e)
  | PyUrl u => Ret (url_address u)
  | _ => Raise AttributeError
  end.

(** *** _lift_parser_result *)

(** The fields of a tree are held as the UTF-8 text the lexer matched, so
    that [.decode('utf-8')] is the identity on the representation.  An
    engine answer that is not UTF-8, on which the decoding would raise,
    is outside the model. *)
Fixpoint _lift_parser_result (retval : SyntaxTree) : Outcome PyVal :=
  match retval with
  | Mailbox dn lp dom =>
      match EmailAddress_init (smart_unquote dn) lp dom with
      | Ret e => Ret (PyEmail e)
      | Raise x => Raise x
      end
  | Url a =>
      match UrlAddress_init a with
      | Ret u => Ret (PyUrl u)
      | Raise x => Raise x
      end
  | TreeList items =>
      let fix lift_all (l : list SyntaxTree) : Outcome (list PyVal) :=
        match l with
        | [] => Ret []
        | t :: l' =>
            match _lift_parser_result t with
            | Ret v =>
                match lift_all l' with
                | Ret vs => Ret (v :: vs)
                | Raise x => Raise x
                end
            | Raise x => Raise x
            end
        end in
      match lift_all items with
      | Ret vs => Ret (PyAddressList vs)
      | Raise x => Raise x
      end
  | NoTree => Ret PyNone
  end.

(** *** parse and parse_discrete_list

    Both are decorated with [metrics_wrapper]: called with [metrics=True]
    they return the tuple of the body, otherwise the tuple without its last
    component.  The definitions are the bodies; [drop_metrics] is the
    wrapper's other view. *)

Definition drop_metrics {A B} (m : M (A * B)) : M A :=
  r <- m ;; ret (fst r).

Definition no_parse_time : ParseMetrics Time := mkParseMetrics tzero.

(** The [try] block shared by [parse] and [parse_discrete_list]: the
    clock is read, the parser runs, its tree is lifted, the clock is read
    again.  The three parser exceptions, and the [SyntaxError] of a
    constructor, are caught. *)
Definition run_parser (g : Grammar) (text : string)
  : M (PyVal * ParseMetrics Time) :=
  bstart <- now ;;
  match parser_parse g text with
  | Parsed tree =>
      match _lift_parser_result tree with
      | Ret retval =>
          tend <- now ;;
          ret (retval, mkParseMetrics (tsub tend bstart))
      | Raise SyntaxError => ret (PyNone, no_parse_time)
      | Raise e => raise e
      end
  | LexError => ret (PyNone, no_parse_time)
  | YaccError => ret (PyNone, no_parse_time)
  | GrammarSyntaxError => ret (PyNone, no_parse_time)
  end.

Definition parse (address : basestring) (addr_spec_only : bool)
  : M (PyVal * ParseMetrics Time) :=
  let parser :=
    if addr_spec_only then addr_spec_parser else mailbox_or_url_parser in
  let address := encode_utf8 address in
  if is_empty address then ret (PyNone, no_parse_time)
  else if bytes_len address >? MAX_ADDRESS_LENGTH
  then ret (PyNone, no_parse_time)
  else run_parser parser address.

Definition parse_discrete_list (address_list : basestring)
  : M (PyVal * ParseMetrics Time) :=
  let address_list := encode_utf8 address_list in
  if is_empty address_list then ret (PyNone, no_parse_time)
  else if bytes_len address_list >? MAX_ADDRESS_LIST_LENGTH
  then ret (PyNone, no_parse_time)
  else run_parser mailbox_or_url_list_parser address_list.

(** *** EmailAddress.__eq__ and UrlAddress.__eq__ *)

Definition EmailAddress_eq (self : EmailAddress) (other : PyVal) : M bool :=
  other <- match other with
           | PyText t => drop_metrics (parse t false)
           | _ => ret other
           end ;;
  if truthy other then
    a <- lift_outcome (getattr_address other) ;;
    ret (String.eqb (unicode_lower (address self)) (unicode_lower a))
  else ret false.

Definition EmailAddress_ne (self : EmailAddress) (other : PyVal) : M bool :=
  b <- EmailAddress_eq self other ;; ret (negb b).

Definition UrlAddress_eq (self : UrlAddress) (other : PyVal) : M bool :=
  other <- match other with
           | PyText t => drop_metrics (parse t false)
           | _ => ret other
           end ;;
  if truthy other then
    a <- lift_outcome (getattr_address other) ;;
    ret (String.eqb (url_address self) a)
  else ret false.

(** *** parse_list *)

Definition add_parsing (mtimes metrics : ParseMetrics Time)
  : ParseMetrics Time :=
  mkParseMetrics (tadd (pm_parsing mtimes) (pm_parsing metrics)).

(** The loop over the items of a list input; [parsed] and [unparsed] are
    the two lists being appended to. *)
Fixpoint parse_items (items parsed unparsed : list PyVal)
  (mtimes : ParseMetrics Time)
  : M (list PyVal * list PyVal * ParseMetrics Time) :=
  match items with
  | [] => ret (parsed, unparsed, mtimes)
  | address :: rest =>
      match address with
      | PyText t =>
          r <- parse t false ;;
          let retval := fst r in
          let mtimes := add_parsing mtimes (snd r) in
          if truthy retval
          then parse_items rest (parsed ++ [retval]) unparsed mtimes
          else parse_items rest parsed (unparsed ++ [address]) mtimes
      | PyEmail _ => parse_items rest (parsed ++ [address]) unparsed mtimes
      | PyUrl _ => parse_items rest (parsed ++ [address]) unparsed mtimes
      | _ => parse_items rest parsed (unparsed ++ [address]) mtimes
      end
  end.

(** The body of [parse_list] up to its [return]: the parsed collection,
    the unparsed list and the metrics. *)
Definition parse_list_partition (address_list : PyVal)
  : M (PyVal * list PyVal * ParseMetrics Time) :=
  let mtimes := no_parse_time in
  if negb (truthy address_list) then
    ret (PyAddressList [], [], mtimes)
  else
    match address_list with
    | PyList l =>
        if Z.of_nat (length l) >? MAX_ADDRESS_NUMBER
        then ret (PyAddressList [], [address_list], mtimes)
        else
          r <- parse_items l [] [] mtimes ;;
          ret (PyAddressList (fst (fst r)), snd (fst r), snd r)
    | PyText t =>
        if py_len t >? MAX_ADDRESS_LIST_LENGTH
        then ret (PyAddressList [], [address_list], mtimes)
        else
          r <- parse_discrete_list t ;;
          let retval := fst r in
          let mtimes := add_parsing mtimes (snd r) in
          if truthy retval
          then ret (retval, [], mtimes)
          else ret (PyAddressList [], [address_list], mtimes)
    | _ => ret (PyAddressList [], [address_list], mtimes)
    end.

(** [strict] is ignored (a warning is logged). *)
Definition parse_list (address_list : PyVal) (strict as_tuple : bool)
  : M (ListResult (ParseMetrics Time)) :=
  r <- parse_list_partition address_list ;;
  if as_tuple
  then ret (WithUnparsed (fst (fst r)) (snd (fst r)) (snd r))
  else ret (OnlyParsed (fst (fst r)) (snd r)).

(** *** validate_address *)

Definition no_validate_time : ValidateMetrics Time :=
  mkValidateMetrics tzero tzero tzero tzero tzero.

Definition set_parsing (m : ValidateMetrics Time) (v : Time) :=
  mkValidateMetrics v (vm_mx_lookup m) (vm_dns_lookup m) (vm_mx_conn m)
    (vm_custom_grammar m).

Definition set_mx (m : ValidateMetrics Time) (a b c : Time) :=
  mkValidateMetrics (vm_parsing m) a b c (vm_custom_grammar m).

Definition set_custom_grammar (m : ValidateMetrics Time) (v : Time) :=
  mkValidateMetrics (vm_parsing m) (vm_mx_lookup m) (vm_dns_lookup m)
    (vm_mx_conn m) v.

(** [l[0]] and [l[-1]]. *)
Definition index_first (l : list string) : Outcome string :=
  match l with
  | [] => Raise IndexError
  | x :: _ => Ret x
  end.

Definition index_last (l : list string) : Outcome string :=
  match l with
  | [] => Raise IndexError
  | _ => Ret (last l "")
  end.

(** [plugin and plugin.validate(arg) is False]; [arg] is evaluated only
    when there is a plugin. *)
Definition plugin_rejects (plugin : option Plugin) (arg : Outcome string)
  : M bool :=
  match plugin with
  | None => ret false
  | Some p =>
      a <- lift_outcome arg ;;
      ret (is_False (plugin_validate p a))
  end.

(** [mail_exchanger_lookup(dom, metrics=True)]. *)
Definition lookup_exchanger (dom : string)
  : M (option Exchanger * MxMetrics Time) :=
  fun w => let (x, w') := mail_exchanger_lookup dom w in (Ret x, w').

Definition validate_address (addr_spec : PyVal)
  : M (PyVal * ValidateMetrics Time) :=
  let mtimes := no_validate_time in
  if is_None addr_spec then ret (PyNone, mtimes)
  else
    addr_parts <- lift_outcome (preparse_address addr_spec) ;;
    match addr_parts with
    | None => ret (PyNone, mtimes)
    | Some addr_parts =>
        bstart <- now ;;
        paddr <- drop_metrics (parse (Str (join "@" addr_parts)) true) ;;
        tend <- now ;;
        let mtimes := set_parsing mtimes (tsub tend bstart) in
        if is_None paddr then ret (PyNone, mtimes)
        else
          dom <- lift_outcome (index_last addr_parts) ;;
          r <- lookup_exchanger dom ;;
          let exchanger := fst r in
          let mx_metrics := snd r in
          let mtimes :=
            set_mx mtimes (mxm_mx_lookup mx_metrics)
              (mxm_dns_lookup mx_metrics) (mxm_mx_conn mx_metrics) in
          match exchanger with
          | None => ret (PyNone, mtimes)
          | Some exchanger =>
              bstart <- now ;;
              let plugin := plugin_for_esp exchanger in
              tend <- now ;;
              let mtimes := set_custom_grammar mtimes (tsub tend bstart) in
              rejected <- plugin_rejects plugin (index_first addr_parts) ;;
              if rejected then ret (PyNone, mtimes)
              else ret (paddr, mtimes)
          end
    end.

(** *** validate_list *)

Definition add_mx (m : ValidateMetrics Time) (x : MxMetrics Time) :=
  mkValidateMetrics (vm_parsing m)
    (tadd (vm_mx_lookup m) (mxm_mx_lookup x))
    (tadd (vm_dns_lookup m) (mxm_dns_lookup x))
    (tadd (vm_mx_conn m) (mxm_mx_conn x))
    (vm_custom_grammar m).

(** [for k, v in metrics.iteritems(): metrics[k] += v]. *)
Definition add_to_itself (metrics : ValidateMetrics Time) :=
  mkValidateMetrics
    (tadd (vm_parsing metrics) (vm_parsing metrics))
    (tadd (vm_mx_lookup metrics) (vm_mx_lookup metrics))
    (tadd (vm_dns_lookup metrics) (vm_dns_lookup metrics))
    (tadd (vm_mx_conn metrics) (vm_mx_conn metrics))
    (tadd (vm_custom_grammar metrics) (vm_custom_grammar metrics)).

(** [paddr.full_spec()] as a list item: a byte string. *)
Definition full_spec_item (e : EmailAddress) : M PyVal :=
  s <- lift_outcome (full_spec e) ;; ret (PyText (Str s)).

(** First loop: the parsed addresses go through the MX lookup and the
    plugin.  [paddr.domain] exists on an [EmailAddress] only. *)
Fixpoint check_parsed (items plist ulist : list PyVal)
  (mtimes : ValidateMetrics Time)
  : M (list PyVal * list PyVal * ValidateMetrics Time) :=
  match items with
  | [] => ret (plist, ulist, mtimes)
  | paddr :: rest =>
      match paddr with
      | PyEmail e =>
          r <- lookup_exchanger (domain e) ;;
          let mtimes := add_mx mtimes (snd r) in
          match fst r with
          | None =>
              u <- full_spec_item e ;;
              check_parsed rest plist (ulist ++ [u]) mtimes
          | Some exchanger =>
              let plugin := plugin_for_esp exchanger in
              bstart <- now ;;
              rejected <- plugin_rejects plugin (Ret (local_part e)) ;;
              if rejected then
                u <- full_spec_item e ;;
                check_parsed rest plist (ulist ++ [u]) mtimes
              else
                tend <- now ;;
                let mtimes := set_custom_grammar mtimes (tsub tend bstart) in
                check_parsed rest (plist ++ [paddr]) ulist mtimes
          end
      | _ => raise AttributeError
      end
  end.

(** Second loop: the unparsable items are retried with [validate_address].
    Its last statement updates [metrics], the record the call returned,
    which is not used afterwards; [mtimes] is what the function returns. *)
Fixpoint repair (items plist ulist : list PyVal)
  (mtimes : ValidateMetrics Time)
  : M (list PyVal * list PyVal * ValidateMetrics Time) :=
  match items with
  | [] => ret (plist, ulist, mtimes)
  | unpar :: rest =>
      r <- validate_address unpar ;;
      let paddr := fst r in
      let metrics := snd r in
      let plist' := if truthy paddr then (plist ++ [paddr])%list else plist in
      let ulist' := if truthy paddr then ulist else (ulist ++ [unpar])%list in
      let metrics := add_to_itself metrics in
      repair rest plist' ulist' mtimes
  end.

(** [for paddr in parsed_addresses]: [parse_list] returns an
    [AddressList], or the lifted result of the list grammar. *)
Definition iterate (v : PyVal) : Outcome (list PyVal) :=
  match v with
  | PyAddressList c => Ret c
  | PyList l => Ret l
  | PyTuple l => Ret l
  | _ => Raise TypeError
  end.

Definition validate_list (addr_list : PyVal) (as_tuple : bool)
  : M (ListResult (ValidateMetrics Time)) :=
  let mtimes := no_validate_time in
  if negb (truthy addr_list) then ret (OnlyParsed (PyAddressList []) mtimes)
  else
    bstart <- now ;;
    r <- parse_list_partition addr_list ;;
    let parsed_addresses := fst (fst r) in
    let unparseable := snd (fst r) in
    tend <- now ;;
    let mtimes := set_parsing mtimes (tsub tend bstart) in
    items <- lift_outcome (iterate parsed_addresses) ;;
    r1 <- check_parsed items [] [] mtimes ;;
    r2 <- repair unparseable (fst (fst r1)) (snd (fst r1)) (snd r1) ;;
    if as_tuple
    then ret (WithUnparsed (PyAddressList (fst (fst r2))) (snd (fst r2)) (snd r2))
    else ret (OnlyParsed (PyAddressList (fst (fst r2))) (snd r2)).

Definition is_email (s : basestring) : M bool :=
  r <- drop_metrics (parse s true) ;; ret (truthy r).

(** *** The values the parsers compute

    What [parse] and [parse_discrete_list] return does not depend on the
    clock; only the metrics do.  These are the returned values alone. *)

Definition lifted (g : Grammar) (text : string) : PyVal :=
  match parser_parse g text with
  | Parsed tree =>
      match _lift_parser_result tree with
      | Ret v => v
      | Raise _ => PyNone
      end
  | _ => PyNone
  end.

Definition parse_value (address : basestring) (addr_spec_only : bool)
  : PyVal :=
  let text := encode_utf8 address in
  if is_empty text then PyNone
  else if bytes_len text >? MAX_ADDRESS_LENGTH then PyNone
  else lifted (if addr_spec_only then addr_spec_parser
               else mailbox_or_url_parser) text.

Definition parse_discrete_list_value (address_list : basestring) : PyVal :=
  let text := encode_utf8 address_list in
  if is_empty text then PyNone
  else if bytes_len text >? MAX_ADDRESS_LIST_LENGTH then PyNone
  else lifted mailbox_or_url_list_parser text.

(** An item of a list input that ends in the parsed collection, and what
    is stored for it. *)
Definition accepted (item : PyVal) : bool :=
  match item with
  | PyText t => truthy (parse_value t false)
  | PyEmail _ => true
  | PyUrl _ => true
  | _ => false
  end.

Definition parsed_item (item : PyVal) : PyVal :=
  match item with
  | PyText t => parse_value t false
  | _ => item
  end.

(** The world in which [validate_address] queries the mail exchanger:
    after a clock reading, the parse, and another clock reading. *)
Definition lookup_world (addr_parts : list string) (w : World) : World :=
  snd ((_ <- now ;;
        _ <- parse (Str (join "@" addr_parts)) true ;;
        now) w).

End Address.

(** ** The rest of the address model *)

Section Collections.

Context {World Time : Type}.
Context {RT : PyRuntime World Time}.
Context {CO : Collaborators World Time}.

(** *** Strings of both kinds *)

Definition is_unicode (t : basestring) : bool :=
  match t with
  | Unicode _ => true
  | Str _ => false
  end.

(** A [str] that takes part in a unicode operation is decoded as ASCII. *)
Definition decodable (t : basestring) : bool :=
  match t with
  | Unicode _ => true
  | Str s => all_ascii s
  end.

(** [sep.join(parts)] on strings of both kinds.  No item: the empty string
    of the kind of [sep].  One item: the item itself, decoded when [sep] is
    unicode.  Otherwise a [str] unless [sep] or an item is unicode, in
    which case every [str] involved is decoded as ASCII. *)
Definition py_join (sep : basestring) (parts : list basestring)
  : Outcome basestring :=
  match parts with
  | [] => Ret (if is_unicode sep then Unicode "" else Str "")
  | [p] =>
      if is_unicode sep then
        if decodable p then Ret (Unicode (encode_utf8 p))
        else Raise UnicodeError
      else Ret p
  | _ =>
      if is_unicode sep || existsb is_unicode parts then
        if decodable sep && forallb decodable parts
        then Ret (Unicode (join (encode_utf8 sep) (map encode_utf8 parts)))
        else Raise UnicodeError
      else Ret (Str (join (encode_utf8 sep) (map encode_utf8 parts)))
  end.

(** *** class AddressList, on its [container] *)

(** A list comprehension or generator over the container: the calls are
    made in order and the first exception ends it. *)
Fixpoint collect {A B} (f : A -> Outcome B) (l : list A) : Outcome (list B) :=
  match l with
  | [] => Ret []
  | x :: l' =>
      match f x with
      | Ret y =>
          match collect f l' with
          | Ret ys => Ret (y :: ys)
          | Raise e => Raise e
          end
      | Raise e => Raise e
      end
  end.

(** [addr.full_spec()] on an element: a [str] for an [EmailAddress], the
    unicode [address] for a [UrlAddress], [full_spec()] with the default
    delimiter for an [AddressList]; other objects have no such method. *)
Fixpoint item_full_spec (v : PyVal) : Outcome basestring :=
  match v with
  | PyEmail e =>
      match full_spec e with
      | Ret s => Ret (Str s)
      | Raise x => Raise x
      end
  | PyUrl u => Ret (Unicode (url_address u))
  | PyAddressList c =>
      let fix each (l : list PyVal) : Outcome (list basestring) :=
        match l with
        | [] => Ret []
        | x :: l' =>
            match item_full_spec x with
            | Ret y =>
                match each l' with
                | Ret ys => Ret (y :: ys)
                | Raise e => Raise e
                end
            | Raise e => Raise e
            end
        end in
      match each c with
      | Ret parts => py_join (Str ", ") parts
      | Raise e => Raise e
      end
  | _ => Raise AttributeError
  end.

(** [AddressList.full_spec(delimiter)]; also [__str__], and [__repr__]
    between brackets. *)
Definition AddressList_full_spec (container : list PyVal)
  (delimiter : basestring) : Outcome basestring :=
  match collect item_full_spec container with
  | Ret parts => py_join delimiter parts
  | Raise e => Raise e
  end.

(** [addr.to_unicode()] on an element. *)
Fixpoint item_to_unicode (v : PyVal) : Outcome basestring :=
  match v with
  | PyEmail e => Ret (Unicode (to_unicode e))
  | PyUrl u => Ret (Unicode (url_address u))
  | PyAddressList c =>
      let fix each (l : list PyVal) : Outcome (list basestring) :=
        match l with
        | [] => Ret []
        | x :: l' =>
            match item_to_unicode x with
            | Ret y =>
                match each l' with
                | Ret ys => Ret (y :: ys)
                | Raise e => Raise e
                end
            | Raise e => Raise e
            end
        end in
      match each c with
      | Ret parts => py_join (Unicode ", ") parts
      | Raise e => Raise e
      end
  | _ => Raise AttributeError
  end.

Definition AddressList_to_unicode (container : list PyVal)
  (delimiter : basestring) : Outcome basestring :=
  match collect item_to_unicode container with
  | Ret parts => py_join delimiter parts
  | Raise e => Raise e
  end.

(** [other.container]. *)
Definition getattr_container (v : PyVal) : Outcome (list PyVal) :=
  match v with
  | PyAddressList c => Ret c
  | _ => Raise AttributeError
  end.

(** [parse_list(x)] with the defaults: the wrapper leaves the parsed
    collection alone. *)
Definition parse_list_parsed (address_list : PyVal) : M World PyVal :=
  r <- parse_list address_list false false ;;
  match r with
  | OnlyParsed parsed _ => ret parsed
  | WithUnparsed parsed unparsed _ =>
      ret (PyTuple [parsed; PyList unparsed])
  end.

(** [AddressList.__add__]: a list operand goes through [parse_list]; any
    other operand must have a [container]. *)
Definition AddressList_add (self : list PyVal) (other : PyVal)
  : M World PyVal :=
  match other with
  | PyList _ =>
      parsed <- parse_list_parsed other ;;
      c <- lift_outcome (getattr_container parsed) ;;
      ret (PyAddressList (self ++ c))
  | _ =>
      c <- lift_outcome (getattr_container other) ;;
      ret (PyAddressList (self ++ c))
  end.

(** *** Shapes of values *)

(** An instance of one of the two address classes. *)
Definition is_address (v : PyVal) : bool :=
  match v with
  | PyEmail _ => true
  | PyUrl _ => true
  | _ => false
  end.

Definition is_email_address (v : PyVal) : bool :=
  match v with
  | PyEmail _ => true
  | _ => false
  end.

(** What the constructors guarantee: an [EmailAddress] with a local part
    and a domain, a [UrlAddress] with an address, [None], or an
    [AddressList] of such values. *)
Fixpoint constructed (v : PyVal) : bool :=
  match v with
  | PyNone => true
  | PyEmail e => negb (is_empty (local_part e)) && negb (is_empty (domain e))
  | PyUrl u => negb (is_empty (url_address u))
  | PyAddressList c => forallb constructed c
  | _ => false
  end.

End Collections.

(** ** A concrete environment

    Stand-ins for the runtime and for the collaborators, used to run the
    functions on concrete inputs.  The clock ticks once per reading; times
    are integers. *)

Module Sample.

Definition lower_char (c : ascii) : ascii :=
  let n := N_of_ascii c in
  if ((65 <=? n) && (n <=? 90))%N then ascii_of_N (n + 32) else c.

(** [lower] on ASCII letters; other bytes are kept (on ASCII text this is
    [unicode.lower]). *)
Fixpoint ascii_lower (s : string) : string :=
  match s with
  | EmptyString => EmptyString
  | String c s' => String (lower_char c) (ascii_lower s')
  end.

(** A multiplicative string hash on 64 bits. *)
Fixpoint hash_from (acc : Z) (s : string) : Z :=
  match s with
  | EmptyString => acc
  | String c s' =>
      hash_from
        (Z.lxor ((acc * 1000003) mod 2 ^ 64) (Z.of_N (N_of_ascii c))) s'
  end.

Definition string_hash (s : string) : Z := hash_from 5381 s.

Fixpoint split_on (sep : ascii) (s : string) : list string :=
  match s with
  | EmptyString => [""]
  | String c s' =>
      if Ascii.eqb c sep then "" :: split_on sep s'
      else
        match split_on sep s' with
        | [] => [String c ""]
        | p :: ps => String c p :: ps
        end
  end.

(** The two bytes of U+00FC (u with diaeresis) in UTF-8. *)
Definition u_diaeresis : string :=
  String (ascii_of_N 195) (String (ascii_of_N 188) "").

(** The [idna] codec on one label: an ASCII label of 1 to 63 bytes is
    unchanged; the one internationalized label of the examples has its
    Punycode form; the codec is left undefined elsewhere. *)
Definition idna_label (l : string) : option string :=
  if all_ascii l then
    if (0 <? bytes_len l) && (bytes_len l <? 64) then Some l else None
  else if String.eqb l ("b" ++ u_diaeresis ++ "cher") then Some "xn--bcher-kva"
  else None.

Fixpoint idna_labels (ls : list string) : option (list string) :=
  match ls with
  | [] => Some []
  | [l] => if is_empty l then Some [l]
           else match idna_label l with Some a => Some [a] | None => None end
  | l :: rest =>
      match idna_label l, idna_labels rest with
      | Some a, Some r => Some (a :: r)
      | _, _ => None
      end
  end.

Definition idna (dom : string) : option string :=
  match idna_labels (split_on "." dom) with
  | Some ls => Some (join "." ls)
  | None => None
  end.

#[global] Instance runtime : PyRuntime Z Z := {|
  time_time := fun w => (w, w + 1);
  tzero := 0;
  tadd := Z.add;
  tsub := Z.sub;
  unicode_lower := ascii_lower;
  py_hash := string_hash;
  idna_encode := idna
|}.

(** *** Grammar engine *)

Fixpoint all_chars (p : ascii -> bool) (s : string) : bool :=
  match s with
  | EmptyString => true
  | String c s' => p c && all_chars p s'
  end.

Definition is_special (c : ascii) : bool :=
  let n := N_of_ascii c in
  ((n <=? 32) || (n =? 127)
   || existsb (N.eqb n) [34; 40; 41; 44; 58; 59; 60; 62; 64; 91; 92; 93])%N.

(** A character of an atom: printable, not a special; UTF-8 bytes are
    allowed. *)
Definition is_atext (c : ascii) : bool :=
  negb (is_special c) && negb (Ascii.eqb c ".").

Definition is_atom (s : string) : bool :=
  negb (is_empty s) && all_chars is_atext s.

Definition is_dot_atom (s : string) : bool :=
  forallb is_atom (split_on "." s).

(** [s.rsplit('@', 1)] when there is an [@]. *)
Definition rsplit_at (s : string) : option (string * string) :=
  match split_on "@" s with
  | [] => None
  | [_] => None
  | pieces => Some (join "@" (removelast pieces), last pieces "")
  end.

Definition parse_addr_spec (s : string) : option SyntaxTree :=
  match rsplit_at s with
  | Some (lp, dom) =>
      if is_dot_atom lp && is_dot_atom dom then Some (Mailbox "" lp dom)
      else None
  | None => None
  end.

Fixpoint strip_left (s : string) : string :=
  match s with
  | String " " s' => strip_left s'
  | _ => s
  end.

Fixpoint rev_string (acc s : string) : string :=
  match s with
  | EmptyString => acc
  | String c s' => rev_string (String c acc) s'
  end.

Definition strip (s : string) : string :=
  rev_string "" (strip_left (rev_string "" (strip_left s))).

Definition is_phrase_char (c : ascii) : bool :=
  Ascii.eqb c " " || Ascii.eqb c "." || is_atext c.

(** A character other than [d]. *)
Definition differs (d : ascii) (c : ascii) : bool := negb (Ascii.eqb c d).

(** A character of a dot-atom. *)
Definition dot_char (c : ascii) : bool := is_atext c || Ascii.eqb c ".".

(** [display-name <addr-spec>]. *)
Definition parse_name_addr (s : string) : option SyntaxTree :=
  match split_on "<" s with
  | [name; rest] =>
      match split_on ">" rest with
      | [spec; ""] =>
          match parse_addr_spec spec with
          | Some (Mailbox _ lp dom) =>
              if all_chars is_phrase_char name
              then Some (Mailbox (strip name) lp dom)
              else None
          | _ => None
          end
      | _ => None
      end
  | _ => None
  end.

Definition parse_url (s : string) : option SyntaxTree :=
  if (prefix "http://" s || prefix "https://" s)
     && all_chars (fun c => negb (N_of_ascii c <=? 32)%N) s
  then Some (Url s) else None.

Definition parse_mailbox_or_url (s : string) : option SyntaxTree :=
  match parse_url s with
  | Some t => Some t
  | None =>
      match parse_name_addr s with
      | Some t => Some t
      | None => parse_addr_spec s
      end
  end.

Fixpoint parse_each (items : list string) : option (list SyntaxTree) :=
  match items with
  | [] => Some []
  | i :: rest =>
      match parse_mailbox_or_url (strip i), parse_each rest with
      | Some t, Some ts => Some (t :: ts)
      | _, _ => None
      end
  end.

(** Items separated by commas. *)
Definition parse_mailbox_or_url_list (s : string) : option SyntaxTree :=
  match parse_each (split_on "," s) with
  | Some ts => Some (TreeList ts)
  | None => None
  end.

(** Modelled from the spec: the grammar engine of
    [flanker.addresslib.parser], which is not in this module.  The spec
    gives its interface ([GrammarEngine.parse], failing with a lexical,
    grammatical or syntax error) and the shapes it accepts: addr-specs
    [local@domain], internationalized domains included, mailboxes with a
    display name, URLs, and delimited lists of these. *)
Definition grammar_engine (g : Grammar) (text : string) : ParseOutcome :=
  let r :=
    match g with
    | addr_spec_parser => parse_addr_spec text
    | mailbox_or_url_parser => parse_mailbox_or_url text
    | mailbox_or_url_list_parser => parse_mailbox_or_url_list text
    end in
  match r with
  | Some t => Parsed t
  | None => GrammarSyntaxError
  end.

(** *** Validation collaborators *)

Fixpoint remove_dots (s : string) : string :=
  match s with
  | EmptyString => EmptyString
  | String c s' =>
      if Ascii.eqb c "." then remove_dots s' else String c (remove_dots s')
  end.

(** Modelled from the spec: [flanker.addresslib.validate.preparse_address],
    which is not in this module: it splits the addr-spec into local part
    and domain, with provider-specific punctuation canonicalization (here:
    dots are dropped from the local part for gmail.com); none when the text
    has no [@].  A value that is not text has no [rsplit]. *)
Definition preparse (addr_spec : PyVal) : Outcome (option (list string)) :=
  match addr_spec with
  | PyText t =>
      match rsplit_at (encode_utf8 t) with
      | Some (lp, dom) =>
          if String.eqb dom "gmail.com"
          then Ret (Some [remove_dots lp; dom])
          else Ret (Some [lp; dom])
      | None => Ret None
      end
  | _ => Raise AttributeError
  end.

(** Modelled from the spec: [mail_exchanger_lookup], which is not in this
    module: an exchanger descriptor or none, with the three sub-metrics.
    Two domains have an exchanger; a lookup takes six ticks. *)
Definition mx_lookup (dom : string) (w : Z)
  : (option Exchanger * MxMetrics Z) * Z :=
  let found :=
    if String.eqb dom "gmail.com" then Some "gmail-smtp-in.l.google.com"
    else if String.eqb dom "smith.com" then Some "mx.smith.com"
    else None in
  ((found, mkMxMetrics 3 2 1), w + 6).

(** Modelled from the spec: [plugin_for_esp] and a plugin, which are not
    in this module: one provider has a local-part grammar (6 to 30
    characters). *)
Definition gmail_plugin : Plugin :=
  mkPlugin (fun lp =>
    PyBool ((6 <=? bytes_len lp) && (bytes_len lp <=? 30))).

Definition plugin_for (ex : Exchanger) : option Plugin :=
  if String.eqb ex "gmail-smtp-in.l.google.com" then Some gmail_plugin
  else None.

(** Modelled from the spec: [smart_quote] and [smart_unquote], which are
    not in this module: a name with syntax-significant characters is put
    in double quotes; surrounding double quotes are removed. *)
Definition dquote : ascii := ascii_of_N 34.

Definition quote (s : string) : string :=
  if all_chars (fun c => Ascii.eqb c " " || negb (is_special c)) s then s
  else String dquote (s ++ String dquote "").

Definition unquote (s : string) : string :=
  match s with
  | String c rest =>
      match rev_string "" rest with
      | String d inner =>
          if Ascii.eqb c dquote && Ascii.eqb d dquote
          then rev_string "" inner
          else s
      | EmptyString => s
      end
  | EmptyString => s
  end.

Definition hex_digit (n : N) : ascii :=
  if (n <? 10)%N then ascii_of_N (48 + n) else ascii_of_N (55 + n).

(** A character that [q_encode] keeps. *)
Definition plain_char (c : ascii) : bool :=
  is_ascii_char c && negb (is_special c).

Fixpoint q_encode (s : string) : string :=
  match s with
  | EmptyString => EmptyString
  | String c s' =>
      if is_ascii_char c && negb (is_special c) then String c (q_encode s')
      else
        let n := N_of_ascii c in
        String "=" (String (hex_digit (n / 16)) (String (hex_digit (n mod 16))
          (q_encode s')))
  end.

(** Modelled from the spec: [encode_string], which is not in this module:
    ASCII text is kept, other text becomes a MIME encoded-word. *)
Definition mime_encode (s : string) (maxlinelen : Z) : string :=
  if all_ascii s then s else "=?utf-8?q?" ++ q_encode s ++ "?=".

#[global] Instance collaborators : Collaborators Z Z := {|
  parser_parse := grammar_engine;
  preparse_address := preparse;
  mail_exchanger_lookup := mx_lookup;
  plugin_for_esp := plugin_for;
  smart_quote := quote;
  smart_unquote := unquote;
  encode_string := mime_encode
|}.

(** *** Inputs *)

(** [doubled n s] is [s] repeated [2 ^ n] times. *)
Fixpoint doubled (n : nat) (s : string) : string :=
  match n with
  | O => s
  | S n' => let d := doubled n' s in d ++ d
  end.

(** A text of 1025 bytes and one of 1,048,577 bytes. *)
Definition long_address : string := String "a" (doubled 10 "a").
Definition long_list : string := String "a" (doubled 20 "a").

(** [a@b] U+00FC [cher.de], an addr-spec with an internationalized
    domain. *)
Definition idn_address : string := "a@b" ++ u_diaeresis ++ "cher.de".

(** A mailbox whose display name is U+00FC 256 times (512 bytes), and an
    addr-spec whose domain has a label of 64 bytes. *)
Definition long_name_address : string :=
  doubled 8 u_diaeresis ++ " <a@b>".
Definition long_label_address : string := "a@" ++ doubled 6 "a" ++ ".com".

Definition mixed_items : list PyVal :=
  [PyText (Str "A <a@b>"); PyText (Str "C"); PyText (Str "D <d@e>");
   PyInt 3].

(** A list of 1025 addresses. *)
Definition many_items : list PyVal := repeat (PyText (Str "a@b")) 1025.

Definition a_b : EmailAddress := mkEmailAddress "A" "a" "b".
Definition d_e : EmailAddress := mkEmailAddress "D" "d" "e".

End Sample.

(** ** Properties *)

(** *** Lengths *)

Lemma len_from_length (s : string) (acc : Z) :
  len_from acc s = acc + Z.of_nat (String.length s).
Proof.
  revert acc; induction s as [|c s IH]; intros acc; simpl.
  - lia.
  - rewrite IH. lia.
Qed.

Lemma bytes_len_length (s : string) :
  bytes_len s = Z.of_nat (String.length s).
Proof. unfold bytes_len. rewrite len_from_length. lia. Qed.

Lemma codepoints_from_bounds (s : string) (acc : Z) :
  acc <= codepoints_from acc s <= len_from acc s.
Proof.
  revert acc; induction s as [|c s IH]; intros acc; simpl.
  - lia.
  - destruct (is_continuation c).
    + specialize (IH acc). rewrite len_from_length in *. lia.
    + specialize (IH (acc + 1)). lia.
Qed.

(** A text has at most as many units as its encoding has bytes. *)
Lemma py_len_le_bytes (t : basestring) :
  py_len t <= bytes_len (encode_utf8 t).
Proof.
  destruct t as [s|s]; simpl.
  - lia.
  - unfold bytes_len. apply codepoints_from_bounds.
Qed.

Lemma is_empty_true (s : string) : is_empty s = true <-> s = "".
Proof. destruct s; simpl; split; congruence. Qed.

Lemma is_empty_false (s : string) : is_empty s = false <-> s <> "".
Proof. destruct s; simpl; split; congruence. Qed.

(** *** _lift_parser_result raises nothing but SyntaxError *)

Section Properties.

Context {World Time : Type}.
Context {RT : PyRuntime World Time}.
Context {CO : Collaborators World Time}.

(** *** Running the monad *)

Lemma bind_returns {A B} (m : M World A) (k : A -> M World B) w a w' :
  m w = (Ret a, w') -> bind m k w = k a w'.
Proof. intros E. unfold bind. rewrite E. reflexivity. Qed.

Lemma now_reads w t w' : time_time w = (t, w') -> now w = (Ret t, w').
Proof. intros E. unfold now. rewrite E. reflexivity. Qed.

Lemma drop_metrics_returns {A B} (m : M World (A * B)) w r w' :
  m w = (Ret r, w') -> drop_metrics m w = (Ret (fst r), w').
Proof.
  intros E. unfold drop_metrics. rewrite (bind_returns _ _ _ _ _ E).
  reflexivity.
Qed.

Lemma lookup_exchanger_returns dom w x w' :
  mail_exchanger_lookup dom w = (x, w') ->
  lookup_exchanger dom w = (Ret x, w').
Proof. intros E. unfold lookup_exchanger. rewrite E. reflexivity. Qed.

Lemma EmailAddress_init_raises dn lp dom e :
  EmailAddress_init dn lp dom = Raise e -> e = SyntaxError.
Proof.
  unfold EmailAddress_init.
  destruct (negb (is_empty lp) && negb (is_empty dom)); congruence.
Qed.

Lemma UrlAddress_init_raises a e :
  UrlAddress_init a = Raise e -> e = SyntaxError.
Proof.
  unfold UrlAddress_init. destruct (negb (is_empty a)); congruence.
Qed.

Lemma lift_raises_SyntaxError (t : SyntaxTree) :
  forall e, _lift_parser_result t = Raise e -> e = SyntaxError.
Proof.
  induction t using SyntaxTree_nested_ind; intros e; simpl.
  - destruct (EmailAddress_init _ lp dom) eqn:E; [discriminate|].
    intros H; inversion H; subst. eapply EmailAddress_init_raises; eauto.
  - destruct (UrlAddress_init a) eqn:E; [discriminate|].
    intros H; inversion H; subst. eapply UrlAddress_init_raises; eauto.
  - match goal with
    | |- context [match ?f items with _ => _ end] =>
        set (lift_all := f);
        assert (A : forall x, lift_all items = Raise x -> x = SyntaxError)
    end.
    { induction H as [|t l Ht Hl IH]; intros x; simpl.
      - discriminate.
      - destruct (_lift_parser_result t) eqn:Et.
        + destruct (lift_all l) eqn:El; [discriminate|].
          intros Hx; inversion Hx; subst. apply IH. reflexivity.
        + intros Hx; inversion Hx; subst. apply Ht. reflexivity. }
    destruct (lift_all items) eqn:El; [discriminate|].
    intros Hx; inversion Hx; subst. apply A. reflexivity.
  - discriminate.
Qed.

(** *** The parsers return, and return the values above *)

Lemma run_parser_returns (g : Grammar) (text : string) (w : World) :
  exists m w', run_parser g text w = (Ret (lifted g text, m), w').
Proof.
  unfold run_parser, lifted, bind, now, ret.
  destruct (time_time w) as [t0 w0].
  destruct (parser_parse g text) as [tree| | |]; try (eexists _, _; reflexivity).
  destruct (_lift_parser_result tree) as [v|e] eqn:E.
  - destruct (time_time w0) as [t1 w1]. eexists _, _; reflexivity.
  - apply lift_raises_SyntaxError in E. subst e. eexists _, _; reflexivity.
Qed.

Lemma parse_returns (t : basestring) (a : bool) (w : World) :
  exists m w', parse t a w = (Ret (parse_value t a, m), w').
Proof.
  unfold parse, parse_value.
  destruct (is_empty (encode_utf8 t)); [eexists _, _; reflexivity|].
  destruct (bytes_len (encode_utf8 t) >? MAX_ADDRESS_LENGTH);
    [eexists _, _; reflexivity|].
  apply run_parser_returns.
Qed.

Lemma parse_discrete_list_returns (t : basestring) (w : World) :
  exists m w',
    parse_discrete_list t w = (Ret (parse_discrete_list_value t, m), w').
Proof.
  unfold parse_discrete_list, parse_discrete_list_value.
  destruct (is_empty (encode_utf8 t)); [eexists _, _; reflexivity|].
  destruct (bytes_len (encode_utf8 t) >? MAX_ADDRESS_LIST_LENGTH);
    [eexists _, _; reflexivity|].
  apply run_parser_returns.
Qed.

(** *** Length ceilings *)

Lemma parse_discrete_list_over_ceiling (t : basestring) (w : World) :
  MAX_ADDRESS_LIST_LENGTH < py_len t ->
  parse_discrete_list t w = (Ret (PyNone, no_parse_time), w).
Proof.
  intros L. unfold parse_discrete_list.
  pose proof (py_len_le_bytes t) as B.
  destruct (is_empty (encode_utf8 t)); [reflexivity|].
  destruct (Z.gtb_spec (bytes_len (encode_utf8 t)) MAX_ADDRESS_LIST_LENGTH);
    [reflexivity|lia].
Qed.

(** C4: [parse] returns no result, without raising, for the empty input
    and for every input of more than 1024 units; the list ceiling is
    1,048,576 = 1024 * 1024 units, above which [parse_discrete_list]
    returns no result and [parse_list] puts the whole string, alone, in
    the unparsed list.  Up to the ceilings a non-empty text goes to the
    grammar engine. *)
Theorem length_ceilings :
  MAX_ADDRESS_LENGTH = 1024
  /\ MAX_ADDRESS_LIST_LENGTH = 1048576
  /\ MAX_ADDRESS_LIST_LENGTH = 1024 * MAX_ADDRESS_LENGTH
  /\ (forall t a w,
        encode_utf8 t = "" ->
        parse t a w = (Ret (PyNone, no_parse_time), w))
  /\ (forall t a w,
        MAX_ADDRESS_LENGTH < py_len t ->
        parse t a w = (Ret (PyNone, no_parse_time), w))
  /\ (forall t a w,
        encode_utf8 t <> "" ->
        bytes_len (encode_utf8 t) <= MAX_ADDRESS_LENGTH ->
        parse t a w =
        run_parser (if a then addr_spec_parser else mailbox_or_url_parser)
          (encode_utf8 t) w)
  /\ (forall t w,
        MAX_ADDRESS_LIST_LENGTH < py_len t ->
        parse_discrete_list t w = (Ret (PyNone, no_parse_time), w)
        /\ forall strict,
            parse_list (PyText t) strict true w =
            (Ret (WithUnparsed (PyAddressList []) [PyText t] no_parse_time),
             w))
  /\ (forall t w,
        encode_utf8 t <> "" ->
        bytes_len (encode_utf8 t) <= MAX_ADDRESS_LIST_LENGTH ->
        parse_discrete_list t w =
        run_parser mailbox_or_url_list_parser (encode_utf8 t) w).
Proof.
  repeat split.
  - intros t a w E. unfold parse. rewrite E. reflexivity.
  - intros t a w L. unfold parse.
    pose proof (py_len_le_bytes t) as B.
    destruct (is_empty (encode_utf8 t)); [reflexivity|].
    destruct (Z.gtb_spec (bytes_len (encode_utf8 t)) MAX_ADDRESS_LENGTH);
      [reflexivity|lia].
  - intros t a w N L. unfold parse.
    apply is_empty_false in N. rewrite N.
    destruct (Z.gtb_spec (bytes_len (encode_utf8 t)) MAX_ADDRESS_LENGTH);
      [lia|reflexivity].
  - apply parse_discrete_list_over_ceiling. assumption.
  - intros strict. unfold parse_list, parse_list_partition, bind.
    assert (T : truthy (PyText t) = true).
    { simpl. destruct (is_empty (encode_utf8 t)) eqn:E; [|reflexivity].
      apply is_empty_true in E. pose proof (py_len_le_bytes t) as B.
      rewrite E in B. unfold MAX_ADDRESS_LIST_LENGTH, MAX_ADDRESS_LENGTH,
        MAX_ADDRESS_NUMBER, bytes_len in *. simpl in B. lia. }
    rewrite T. change (negb true) with false. cbv beta iota.
    destruct (Z.gtb_spec (py_len t) MAX_ADDRESS_LIST_LENGTH); [|lia].
    reflexivity.
  - intros t w N L. unfold parse_discrete_list.
    apply is_empty_false in N. rewrite N.
    destruct (Z.gtb_spec (bytes_len (encode_utf8 t)) MAX_ADDRESS_LIST_LENGTH);
      [lia|reflexivity].
Qed.

(** *** parse_list on inputs that are neither text nor list *)

(** C10: a true value that is neither a string nor a list ends, alone, in
    the unparsed list with nothing parsed; a false value (None, the empty
    string, the empty list, ...) gives two empty collections. *)
Theorem parse_list_other_inputs :
  (forall v strict w,
      truthy v = false ->
      parse_list v strict true w =
      (Ret (WithUnparsed (PyAddressList []) [] no_parse_time), w))
  /\ (forall v strict w,
        truthy v = true ->
        (forall t, v <> PyText t) ->
        (forall l, v <> PyList l) ->
        parse_list v strict true w =
        (Ret (WithUnparsed (PyAddressList []) [v] no_parse_time), w)).
Proof.
  split.
  - intros v strict w F. unfold parse_list, parse_list_partition, bind.
    rewrite F. reflexivity.
  - intros v strict w T NT NL. unfold parse_list, parse_list_partition, bind.
    rewrite T. change (negb true) with false. cbv beta iota.
    destruct v; try reflexivity.
    + exfalso. eapply NT. reflexivity.
    + exfalso. eapply NL. reflexivity.
Qed.

(** *** parse_list on a string *)

(** C5, as amended: for a non-empty string [parse_discrete_list] returns;
    when its result is a true value (a non-empty list of addresses) that
    result is the parsed collection and nothing is unparsed; otherwise (no
    result, or an empty one) nothing is parsed and the unparsed list is the
    input string alone.  A failure of the grammar engine gives no result. *)
Theorem parse_list_string_partition (t : basestring) (w : World) :
  encode_utf8 t <> "" ->
  exists m w',
    parse_discrete_list t w = (Ret (parse_discrete_list_value t, m), w')
    /\ (match parser_parse mailbox_or_url_list_parser (encode_utf8 t) with
        | Parsed _ => True
        | _ => parse_discrete_list_value t = PyNone
        end)
    /\ (truthy (parse_discrete_list_value t) = true ->
        exists mt,
          parse_list_partition (PyText t) w =
          (Ret (parse_discrete_list_value t, [], mt), w'))
    /\ (truthy (parse_discrete_list_value t) = false ->
        exists mt,
          parse_list_partition (PyText t) w =
          (Ret (PyAddressList [], [PyText t], mt), w')).
Proof.
  intros N.
  destruct (parse_discrete_list_returns t w) as (m & w' & E).
  exists m, w'. split; [exact E|]. split.
  { unfold parse_discrete_list_value, lifted.
    destruct (parser_parse mailbox_or_url_list_parser (encode_utf8 t));
      try exact I;
      destruct (is_empty (encode_utf8 t)); try reflexivity;
      destruct (bytes_len (encode_utf8 t) >? MAX_ADDRESS_LIST_LENGTH);
      reflexivity. }
  assert (T : truthy (PyText t) = true).
  { simpl. apply is_empty_false in N. rewrite N. reflexivity. }
  unfold parse_list_partition, bind. rewrite T. change (negb true) with false. cbv beta iota.
  destruct (Z.gtb_spec (py_len t) MAX_ADDRESS_LIST_LENGTH) as [L|L].
  - (* over the ceiling: parse_discrete_list is not called *)
    rewrite (parse_discrete_list_over_ceiling t w) in E by lia.
    assert (V : parse_discrete_list_value t = PyNone) by congruence.
    assert (W : w' = w) by congruence.
    rewrite V, W. split.
    + simpl. discriminate.
    + intros _. eexists. reflexivity.
  - rewrite E. cbn [fst snd]. split; intros V; rewrite V;
      eexists; reflexivity.
Qed.

(** *** parse_list on a list *)

Lemma parse_items_partition (items : list PyVal) :
  forall parsed unparsed mtimes w,
  exists m w',
    parse_items items parsed unparsed mtimes w =
    (Ret ((parsed ++ map parsed_item (filter accepted items))%list,
          (unparsed ++ filter (fun i => negb (accepted i)) items)%list,
          m), w').
Proof.
  induction items as [|item rest IH]; intros parsed unparsed mtimes w.
  - simpl. rewrite !app_nil_r. eexists _, _. reflexivity.
  - assert (Keep : forall mt w0,
      accepted item = true -> parsed_item item = item ->
      exists m w',
        parse_items rest (parsed ++ [item]) unparsed mt w0 =
        (Ret ((parsed ++ map parsed_item (filter accepted (item :: rest)))%list,
              (unparsed
               ++ filter (fun i => negb (accepted i)) (item :: rest))%list,
              m), w')).
    { intros mt w0 A P. simpl. rewrite A. simpl. rewrite P.
      destruct (IH (parsed ++ [item])%list unparsed mt w0) as (m & w' & E).
      rewrite <- app_assoc in E. eexists _, _. exact E. }
    assert (Drop : forall mt w0,
      accepted item = false ->
      exists m w',
        parse_items rest parsed (unparsed ++ [item]) mt w0 =
        (Ret ((parsed ++ map parsed_item (filter accepted (item :: rest)))%list,
              (unparsed
               ++ filter (fun i => negb (accepted i)) (item :: rest))%list,
              m), w')).
    { intros mt w0 A. simpl. rewrite A. simpl.
      destruct (IH parsed (unparsed ++ [item])%list mt w0) as (m & w' & E).
      rewrite <- app_assoc in E. eexists _, _. exact E. }
    destruct item as [ |b|n|t|l|l|e|u|c];
      try (apply Drop; reflexivity); try (apply Keep; reflexivity).
    (* a string item: parse decides *)
    cbn [parse_items]. unfold bind.
    destruct (parse_returns t false w) as (pm & w1 & E). rewrite E.
    cbn [fst snd].
    destruct (truthy (parse_value t false)) eqn:V.
    + simpl. rewrite V. simpl.
      destruct (IH (parsed ++ [parse_value t false])%list unparsed
                  (add_parsing mtimes pm) w1) as (m & w' & E').
      rewrite <- app_assoc in E'. eexists _, _. exact E'.
    + apply Drop. simpl. exact V.
Qed.

Lemma partition_lengths (items : list PyVal) :
  (length (map parsed_item (filter accepted items))
   + length (filter (fun i => negb (accepted i)) items)
   = length items)%nat.
Proof.
  rewrite length_map.
  induction items as [|i rest IH]; simpl; [reflexivity|].
  destruct (accepted i); simpl; lia.
Qed.

Lemma parse_list_over_cap (l : list PyVal) (strict : bool) (w : World) :
  MAX_ADDRESS_NUMBER < Z.of_nat (length l) ->
  parse_list (PyList l) strict true w =
  (Ret (WithUnparsed (PyAddressList []) [PyList l] no_parse_time), w).
Proof.
  intros L. unfold parse_list, parse_list_partition, bind.
  assert (T : truthy (PyList l) = true).
  { destruct l; [|reflexivity].
    unfold MAX_ADDRESS_NUMBER in L. simpl in L. lia. }
  rewrite T. change (negb true) with false. cbv beta iota.
  destruct (Z.gtb_spec (Z.of_nat (length l)) MAX_ADDRESS_NUMBER); [|lia].
  reflexivity.
Qed.

(** C2, as amended: for a list of at most 1024 items [parse_list] returns
    the accepted items (parsed strings and typed addresses, in order) and
    the other items (in order), and the two collections together have as
    many elements as the input; a list of more than 1024 items is not split:
    nothing is parsed and the unparsed list holds one element, the input
    list itself. *)
Theorem parse_list_sequence_partition
  (l : list PyVal) (strict : bool) (w : World) :
  (Z.of_nat (length l) <= MAX_ADDRESS_NUMBER ->
   exists parsed unparsed m w',
     parse_list (PyList l) strict true w =
     (Ret (WithUnparsed (PyAddressList parsed) unparsed m), w')
     /\ parsed = map parsed_item (filter accepted l)
     /\ unparsed = filter (fun i => negb (accepted i)) l
     /\ (length parsed + length unparsed = length l)%nat)
  /\ (MAX_ADDRESS_NUMBER < Z.of_nat (length l) ->
      parse_list (PyList l) strict true w =
      (Ret (WithUnparsed (PyAddressList []) [PyList l] no_parse_time), w)).
Proof.
  split; [|apply parse_list_over_cap].
  intros L.
  exists (map parsed_item (filter accepted l)),
         (filter (fun i => negb (accepted i)) l).
  destruct l as [|i l'].
  - exists no_parse_time, w. repeat split.
  - unfold parse_list, parse_list_partition, bind.
    change (negb (truthy (PyList (i :: l')))) with false. cbv beta iota.
    destruct (Z.gtb_spec (Z.of_nat (length (i :: l'))) MAX_ADDRESS_NUMBER);
      [lia|].
    destruct (parse_items_partition (i :: l') [] [] no_parse_time w)
      as (m & w' & E).
    rewrite E. cbn [fst snd app]. exists m, w'.
    repeat split. apply partition_lengths.
Qed.

(** *** validate_address *)

Lemma is_None_true (v : PyVal) : is_None v = true <-> v = PyNone.
Proof. destruct v; simpl; split; congruence. Qed.

Lemma is_None_false (v : PyVal) : is_None v = false <-> v <> PyNone.
Proof. destruct v; simpl; split; congruence. Qed.

Lemma is_False_true (v : PyVal) : is_False v = true <-> v = PyBool false.
Proof.
  destruct v as [ |[|]| | | | | | | ]; simpl; split; congruence.
Qed.

(** C1: the four stages of [validate_address] on a text [t].  No result
    when the preparser yields none, when the parse of the rejoined parts
    (which returns [paddr]) yields none, when the lookup for the domain
    (the last part) yields no exchanger, or when the plugin of the
    exchanger returns [False] on the local part (the first part);
    otherwise, with no plugin or with a plugin that does not return
    [False], the result is the value the parse returned. *)
Theorem validate_address_pipeline (t : basestring) (w : World) :
  let result := fst (drop_metrics (validate_address (PyText t)) w) in
  (preparse_address (PyText t) = Ret None -> result = Ret PyNone)
  /\ (forall parts,
        preparse_address (PyText t) = Ret (Some parts) ->
        let paddr := parse_value (Str (join "@" parts)) true in
        let exchanger :=
          fst (fst (mail_exchanger_lookup (last parts "")
                      (lookup_world parts w))) in
        (exists m w',
            parse (Str (join "@" parts)) true (snd (time_time w))
            = (Ret (paddr, m), w'))
        /\ (paddr = PyNone -> result = Ret PyNone)
        /\ (paddr <> PyNone -> exchanger = None -> result = Ret PyNone)
        /\ (forall ex p,
              paddr <> PyNone -> exchanger = Some ex ->
              plugin_for_esp ex = Some p ->
              plugin_validate p (hd "" parts) = PyBool false ->
              result = Ret PyNone)
        /\ (forall ex,
              paddr <> PyNone -> exchanger = Some ex ->
              (plugin_for_esp ex = None
               \/ exists p, plugin_for_esp ex = Some p
                            /\ plugin_validate p (hd "" parts) <> PyBool false) ->
              result = Ret paddr)).
Proof.
  intros result. subst result.
  split.
  { intros E. unfold drop_metrics, validate_address. cbn [is_None].
    unfold bind, lift_outcome. rewrite E. reflexivity. }
  intros parts E. cbv zeta.
  destruct (time_time w) as [t0 w1] eqn:T0. apply now_reads in T0.
  cbn [snd].
  destruct (parse_returns (Str (join "@" parts)) true w1) as (pm & w2 & P).
  split; [exists pm, w2; exact P|].
  pose proof (drop_metrics_returns _ _ _ _ P) as P'. cbn [fst] in P'.
  destruct (time_time w2) as [t1 w3] eqn:T1. apply now_reads in T1.
  assert (LW : lookup_world parts w = w3).
  { unfold lookup_world.
    rewrite (bind_returns _ _ _ _ _ T0), (bind_returns _ _ _ _ _ P), T1.
    reflexivity. }
  rewrite LW.
  set (paddr := parse_value (Str (join "@" parts)) true) in *.
  assert (Run :
    (r <- validate_address (PyText t) ;; ret (fst r)) w =
    (r <- (if is_None paddr
           then ret (PyNone, set_parsing no_validate_time (tsub t1 t0))
           else
             dom <- lift_outcome (index_last parts) ;;
             r <- lookup_exchanger dom ;;
             let mtimes :=
               set_mx (set_parsing no_validate_time (tsub t1 t0))
                 (mxm_mx_lookup (snd r)) (mxm_dns_lookup (snd r))
                 (mxm_mx_conn (snd r)) in
             match fst r with
             | None => ret (PyNone, mtimes)
             | Some exchanger =>
                 bstart <- now ;;
                 tend <- now ;;
                 rejected <- plugin_rejects (plugin_for_esp exchanger)
                               (index_first parts) ;;
                 if rejected
                 then ret (PyNone, set_custom_grammar mtimes (tsub tend bstart))
                 else ret (paddr, set_custom_grammar mtimes (tsub tend bstart))
             end) ;; ret (fst r)) w3).
  { unfold validate_address. cbn [is_None].
    unfold bind at 1 2. unfold lift_outcome at 1. rewrite E.
    rewrite (bind_returns _ _ _ _ _ T0), (bind_returns _ _ _ _ _ P'),
      (bind_returns _ _ _ _ _ T1).
    unfold bind at 1. reflexivity. }
  unfold drop_metrics. rewrite Run. clear Run.
  destruct (is_None paddr) eqn:PN.
  { apply is_None_true in PN. repeat split; try reflexivity;
      intros; congruence. }
  apply is_None_false in PN.
  assert (NE : parts <> []).
  { intros ->. apply PN. reflexivity. }
  assert (IL : index_last parts = Ret (last parts "")).
  { destruct parts; [congruence|reflexivity]. }
  assert (IF : index_first parts = Ret (hd "" parts)).
  { destruct parts; [congruence|reflexivity]. }
  rewrite IL.
  destruct (mail_exchanger_lookup (last parts "") w3) as [[ex mm] w4] eqn:L.
  apply lookup_exchanger_returns in L.
  match goal with
  | |- context [fst (?run w3)] => remember (fst (run w3)) as res eqn:R
  end.
  cbv [bind lift_outcome] in R. rewrite L in R. cbn [fst snd] in R.
  cbn [fst snd].
  destruct ex as [ex|].
  2:{ subst res. repeat split; try reflexivity; intros; congruence. }
  destruct (time_time w4) as [t2 w5] eqn:T2. apply now_reads in T2.
  destruct (time_time w5) as [t3 w6] eqn:T3. apply now_reads in T3.
  rewrite T2, T3 in R.
  unfold plugin_rejects in R. rewrite IF in R.
  repeat split; try congruence.
  - intros ex' p _ X Q V. inversion X; subst ex'. rewrite Q in R.
    cbv [bind lift_outcome ret] in R. rewrite V in R. exact R.
  - intros ex' _ X [Q|(p & Q & V)]; inversion X; subst ex'; rewrite Q in R.
    + exact R.
    + cbv [bind lift_outcome ret] in R.
      destruct (is_False (plugin_validate p (hd "" parts))) eqn:F.
      * apply is_False_true in F. congruence.
      * exact R.
Qed.

(** *** Equality and hashing *)

(** C3: [a == b] on two [EmailAddress] values returns, without raising,
    whether their canonical addresses ([local_part@domain], domain
    lower-cased) are equal once lower-cased; equal addresses have equal
    hashes; two addresses with the same local part and domains that differ
    only in case are equal and have the same hash. *)
Theorem EmailAddress_eq_hash (a b : EmailAddress) (w : World) :
  exists r,
    EmailAddress_eq a (PyEmail b) w = (Ret r, w)
    /\ (r = true <-> unicode_lower (address a) = unicode_lower (address b))
    /\ (r = true -> EmailAddress_hash a = EmailAddress_hash b)
    /\ (local_part a = local_part b ->
        unicode_lower (domain a) = unicode_lower (domain b) ->
        r = true /\ EmailAddress_hash a = EmailAddress_hash b).
Proof.
  exists (String.eqb (unicode_lower (address a)) (unicode_lower (address b))).
  split; [reflexivity|].
  split; [apply String.eqb_eq|].
  split.
  - intros H. apply String.eqb_eq in H. unfold EmailAddress_hash.
    rewrite H. reflexivity.
  - intros L D.
    assert (A : address a = address b).
    { unfold address. rewrite L, D. reflexivity. }
    unfold EmailAddress_hash. rewrite A. split; [|reflexivity].
    apply String.eqb_refl.
Qed.

(** C9, as amended: [EmailAddress.__eq__] does not look at the class of
    its operand: against a [UrlAddress] it returns whether the two
    addresses are equal once lower-cased, which is what it returns against
    an [EmailAddress] with that address.  The two classes are not
    interchangeable under equality: [UrlAddress.__eq__] compares the
    addresses as they are, so [url == email] holds only when the address
    of the URL is the canonical address of the email address itself, and
    then [email == url] holds too. *)
Theorem EmailAddress_eq_UrlAddress
  (e : EmailAddress) (u : UrlAddress) (w : World) :
  (EmailAddress_eq e (PyUrl u) w = (Ret true, w) <->
   unicode_lower (url_address u) = unicode_lower (address e))
  /\ (EmailAddress_eq e (PyUrl u) w = (Ret false, w) <->
      unicode_lower (url_address u) <> unicode_lower (address e))
  /\ (forall e' : EmailAddress,
        address e' = url_address u ->
        EmailAddress_eq e (PyUrl u) w = EmailAddress_eq e (PyEmail e') w)
  /\ (UrlAddress_eq u (PyEmail e) w = (Ret true, w) <->
      url_address u = address e)
  /\ (UrlAddress_eq u (PyEmail e) w = (Ret false, w) <->
      url_address u <> address e)
  /\ (UrlAddress_eq u (PyEmail e) w = (Ret true, w) ->
      EmailAddress_eq e (PyUrl u) w = (Ret true, w)).
Proof.
  assert (E : EmailAddress_eq e (PyUrl u) w
              = (Ret (String.eqb (unicode_lower (address e))
                        (unicode_lower (url_address u))), w))
    by reflexivity.
  assert (U : UrlAddress_eq u (PyEmail e) w
              = (Ret (String.eqb (url_address u) (address e)), w))
    by reflexivity.
  assert (B : forall (b c : bool) (v : World),
                (Ret b, v) = (Ret c, v) <-> b = c).
  { intros b c v. split; [intros H; inversion H; reflexivity|congruence]. }
  rewrite E, U, !B.
  split; [rewrite String.eqb_eq; split; congruence|].
  split; [rewrite String.eqb_neq; split; congruence|].
  split.
  { intros e' A.
    assert (E' : EmailAddress_eq e (PyEmail e') w
                 = (Ret (String.eqb (unicode_lower (address e))
                           (unicode_lower (address e'))), w))
      by reflexivity.
    rewrite E', A. reflexivity. }
  split; [apply String.eqb_eq|].
  split; [apply String.eqb_neq|].
  rewrite !String.eqb_eq. congruence.
Qed.

(** *** Encoding *)

Lemma all_ascii_false (s : string) :
  all_ascii s = false <->
  exists c, In c (list_ascii_of_string s) /\ (128 <= N_of_ascii c)%N.
Proof.
  induction s as [|c s IH]; simpl.
  - split; [discriminate|]. intros (c & [] & _).
  - unfold is_ascii_char at 1.
    destruct (N.ltb_spec (N_of_ascii c) 128) as [L|L]; simpl.
    + rewrite IH. split.
      * intros (d & I & G). exists d. auto.
      * intros (d & [->|I] & G); [lia|]. exists d. auto.
    + split; [|reflexivity]. intros _. exists c. auto.
Qed.

Lemma ascii_decode_raises (s : string) (e : exn) :
  ascii_decode s = Raise e -> e = UnicodeError.
Proof. unfold ascii_decode. destruct (all_ascii s); congruence. Qed.

(** C7: [to_ace] raises its [ValueError] exactly when
    [requires_non_ascii()] is true, i.e. exactly when the local part has a
    non-ASCII character; [full_spec] never raises it, since it returns the
    unicode form when [requires_non_ascii()] is true and is [to_ace]
    otherwise. *)
Theorem to_ace_encoding_failure (e : EmailAddress) :
  (to_ace e = Raise ValueError <-> requires_non_ascii e = true)
  /\ (requires_non_ascii e = true <->
      exists c, In c (list_ascii_of_string (local_part e))
                /\ (128 <= N_of_ascii c)%N)
  /\ full_spec e <> Raise ValueError
  /\ full_spec e =
     (if requires_non_ascii e then Ret (to_unicode e) else to_ace e).
Proof.
  assert (A : requires_non_ascii e = false -> to_ace e <> Raise ValueError).
  { unfold requires_non_ascii, to_ace. intros R. rewrite R.
    destruct (idna_encode (unicode_lower (domain e))) as [d|]; [|discriminate].
    destruct (negb (is_empty (display_name e))).
    - destruct (ascii_decode (smart_quote _)) eqn:X, (ascii_decode d) eqn:Y;
        try discriminate;
        try (apply ascii_decode_raises in X; subst; discriminate);
        try (apply ascii_decode_raises in Y; subst; discriminate).
    - destruct (ascii_decode d) eqn:Y; [discriminate|].
      apply ascii_decode_raises in Y; subst; discriminate. }
  repeat split.
  - intros H. destruct (requires_non_ascii e) eqn:R; [reflexivity|].
    exfalso. exact (A eq_refl H).
  - unfold requires_non_ascii, to_ace. intros R. rewrite R. reflexivity.
  - unfold requires_non_ascii, is_pure_ascii. rewrite negb_true_iff.
    apply all_ascii_false.
  - unfold requires_non_ascii, is_pure_ascii. rewrite negb_true_iff.
    apply all_ascii_false.
  - unfold full_spec. destruct (requires_non_ascii e) eqn:R; [discriminate|].
    apply A. reflexivity.
Qed.

(** *** Re-parsing full_spec() *)

Lemma append_nonempty (a b : string) (c : ascii) : (a ++ String c b) <> "".
Proof. destruct a; discriminate. Qed.

(** An address that the parsers return comes from a mailbox of the
    grammar engine, with the parts of that mailbox. *)
Lemma lifted_email (g : Grammar) (text : string) (e : EmailAddress) :
  lifted g text = PyEmail e ->
  exists dn,
    parser_parse g text = Parsed (Mailbox dn (local_part e) (domain e))
    /\ display_name e = smart_unquote dn
    /\ local_part e <> "" /\ domain e <> "".
Proof.
  unfold lifted.
  destruct (parser_parse g text) as [tree| | |]; try discriminate.
  destruct tree as [dn lp dom|u|items|].
  - cbn [_lift_parser_result]. unfold EmailAddress_init.
    destruct (is_empty lp) eqn:L; [discriminate|].
    destruct (is_empty dom) eqn:D; [discriminate|].
    cbn [negb andb]. intros H. inversion H. subst e. cbn.
    exists dn. repeat split; apply is_empty_false; assumption.
  - cbn [_lift_parser_result]. unfold UrlAddress_init.
    destruct (negb (is_empty u)); discriminate.
  - cbn [_lift_parser_result].
    match goal with
    | |- context [match ?x with
                  | Ret vs => Ret (PyAddressList vs)
                  | Raise _ => _
                  end] => destruct x
    end; discriminate.
  - discriminate.
Qed.

(** [parse] on a text of at most 1024 bytes in which the grammar engine
    reads a mailbox returns the address with the parts of that mailbox. *)
Lemma parse_reads_mailbox (text dn lp dom : string) (w : World) :
  text <> "" ->
  bytes_len text <= MAX_ADDRESS_LENGTH ->
  parser_parse mailbox_or_url_parser text = Parsed (Mailbox dn lp dom) ->
  lp <> "" -> dom <> "" ->
  exists m w',
    parse (Str text) false w
    = (Ret (PyEmail (mkEmailAddress (smart_unquote dn) lp dom), m), w').
Proof.
  intros NT L G NL ND.
  destruct (parse_returns (Str text) false w) as (m & w' & P).
  exists m, w'. rewrite P. do 3 f_equal.
  unfold parse_value. cbn [encode_utf8].
  apply is_empty_false in NT. rewrite NT.
  destruct (Z.gtb_spec (bytes_len text) MAX_ADDRESS_LENGTH); [lia|].
  unfold lifted. rewrite G. cbn [_lift_parser_result].
  unfold EmailAddress_init.
  apply is_empty_false in NL, ND. rewrite NL, ND. reflexivity.
Qed.

(** *** The second loop of validate_list *)

(** The metrics [repair] returns are those it was given: nothing the
    calls of [validate_address] report is added to them. *)
Lemma repair_keeps_mtimes (items : list PyVal) :
  forall plist ulist mtimes w r w',
    repair items plist ulist mtimes w = (Ret r, w') -> snd r = mtimes.
Proof.
  induction items as [|unpar rest IH]; intros plist ulist mtimes w r w'.
  - simpl. unfold ret. intros H. inversion H. reflexivity.
  - cbn [repair]. unfold bind at 1.
    destruct (validate_address unpar w) as [[x|x] w1]; [|discriminate].
    cbv zeta. apply IH.
Qed.

End Properties.

(** ** Re-parsing full_spec()

    The round trip through [full_spec()] depends on the grammar engine and
    on the idna codec; it is followed here in the environment [Sample]. *)

Section RoundTrip.

Import Sample.

(** *** Characters of the grammar *)

Lemma phrase_char_facts (c : ascii) :
  is_phrase_char c = true ->
  differs "<" c = true /\ differs ">" c = true /\ differs ":" c = true
  /\ differs "@" c = true /\ Ascii.eqb c dquote = false
  /\ (Ascii.eqb c " " || negb (is_special c)) = true.
Proof.
  destruct c as [[] [] [] [] [] [] [] []]; vm_compute; intros H;
    try discriminate H; repeat split.
Qed.

Lemma lower_char_facts (c : ascii) :
  is_atext (lower_char c) = is_atext c
  /\ Ascii.eqb (lower_char c) "." = Ascii.eqb c "."
  /\ lower_char (lower_char c) = lower_char c.
Proof.
  destruct c as [[] [] [] [] [] [] [] []]; vm_compute; repeat split.
Qed.

(** *** Predicates on every character *)

Lemma all_chars_app p (a b : string) :
  all_chars p (a ++ b) = all_chars p a && all_chars p b.
Proof.
  induction a as [|c a IH]; simpl; [reflexivity|].
  rewrite IH. apply andb_assoc.
Qed.

Lemma all_chars_impl (p q : ascii -> bool) (s : string) :
  (forall c, p c = true -> q c = true) ->
  all_chars p s = true -> all_chars q s = true.
Proof.
  intros I. induction s as [|c s IH]; simpl; [reflexivity|].
  intros H. apply andb_true_iff in H. destruct H as [C S].
  rewrite (I c C), (IH S). reflexivity.
Qed.

Lemma all_chars_rev_string p (s acc : string) :
  all_chars p (rev_string acc s) = all_chars p s && all_chars p acc.
Proof.
  revert acc. induction s as [|c s IH]; intros acc; simpl; [reflexivity|].
  rewrite IH. simpl. rewrite andb_assoc, (andb_comm (all_chars p s) (p c)).
  reflexivity.
Qed.

Lemma strip_left_cases (c : ascii) (s : string) :
  strip_left (String c s) = strip_left s
  \/ strip_left (String c s) = String c s.
Proof.
  destruct c as [[] [] [] [] [] [] [] []]; simpl; auto.
Qed.

Lemma all_chars_strip_left p (s : string) :
  all_chars p s = true -> all_chars p (strip_left s) = true.
Proof.
  induction s as [|c s IH]; [reflexivity|].
  intros H. destruct (strip_left_cases c s) as [E|E]; rewrite E.
  - apply IH. simpl in H. apply andb_true_iff in H. tauto.
  - exact H.
Qed.

Lemma all_chars_strip p (s : string) :
  all_chars p s = true -> all_chars p (strip s) = true.
Proof.
  intros H. unfold strip.
  rewrite all_chars_rev_string, andb_true_r.
  apply all_chars_strip_left. rewrite all_chars_rev_string, andb_true_r.
  apply all_chars_strip_left. exact H.
Qed.

Lemma unquote_phrase (s : string) :
  all_chars is_phrase_char s = true -> unquote s = s.
Proof.
  destruct s as [|c s]; [reflexivity|]. simpl. intros H.
  apply andb_true_iff in H. destruct H as [C _].
  apply phrase_char_facts in C. destruct C as (_ & _ & _ & _ & Q & _).
  rewrite Q. destruct (rev_string "" s); reflexivity.
Qed.

(** *** Splitting *)

Lemma split_on_none (sep : ascii) (a : string) :
  all_chars (differs sep) a = true -> split_on sep a = [a].
Proof.
  induction a as [|c a IH]; simpl; [reflexivity|].
  intros H. apply andb_true_iff in H. destruct H as [C A].
  unfold differs in C. apply negb_true_iff in C. rewrite C, (IH A).
  reflexivity.
Qed.

Lemma split_on_first (sep : ascii) (a b : string) :
  all_chars (differs sep) a = true ->
  split_on sep (a ++ String sep b) = a :: split_on sep b.
Proof.
  induction a as [|c a IH]; simpl.
  - intros _. rewrite Ascii.eqb_refl. reflexivity.
  - intros H. apply andb_true_iff in H. destruct H as [C A].
    unfold differs in C. apply negb_true_iff in C. rewrite C, (IH A).
    reflexivity.
Qed.

Lemma split_on_nonempty (sep : ascii) (s : string) : split_on sep s <> [].
Proof.
  destruct s as [|c s]; simpl; [discriminate|].
  destruct (Ascii.eqb c sep); [discriminate|].
  destruct (split_on sep s); discriminate.
Qed.

(** *** Dot-atoms *)

Lemma dot_atom_chars (s : string) :
  forallb (all_chars is_atext) (split_on "." s) = true ->
  all_chars dot_char s = true.
Proof.
  induction s as [|c s IH]; simpl; [reflexivity|].
  destruct (Ascii.eqb c ".") eqn:D.
  - simpl. intros H. unfold dot_char. rewrite D, orb_true_r. simpl.
    apply IH. exact H.
  - pose proof (split_on_nonempty "." s) as N.
    destruct (split_on "." s) as [|p ps]; [congruence|].
    simpl. intros H. apply andb_true_iff in H. destruct H as [H1 H2].
    apply andb_true_iff in H1. destruct H1 as [C P].
    unfold dot_char. rewrite C. simpl. apply IH. simpl.
    rewrite P, H2. reflexivity.
Qed.

Lemma is_dot_atom_chars (s : string) :
  is_dot_atom s = true -> all_chars dot_char s = true.
Proof.
  intros H. apply dot_atom_chars. unfold is_dot_atom in H.
  rewrite forallb_forall in *. intros x I. specialize (H x I).
  unfold is_atom in H. apply andb_true_iff in H. tauto.
Qed.

Lemma is_dot_atom_nonempty (s : string) : is_dot_atom s = true -> s <> "".
Proof. intros H ->. discriminate H. Qed.

Lemma split_on_lower (s : string) :
  split_on "." (ascii_lower s) = map ascii_lower (split_on "." s).
Proof.
  induction s as [|c s IH]; simpl; [reflexivity|].
  destruct (lower_char_facts c) as (_ & D & _). rewrite D.
  destruct (Ascii.eqb c "."); simpl; rewrite IH; [reflexivity|].
  destruct (split_on "." s); reflexivity.
Qed.

Lemma is_atom_lower (p : string) : is_atom (ascii_lower p) = is_atom p.
Proof.
  unfold is_atom. f_equal.
  - destruct p; reflexivity.
  - induction p as [|c p IH]; simpl; [reflexivity|].
    destruct (lower_char_facts c) as (A & _ & _). rewrite A, IH. reflexivity.
Qed.

Lemma is_dot_atom_lower (s : string) :
  is_dot_atom (ascii_lower s) = is_dot_atom s.
Proof.
  unfold is_dot_atom. rewrite split_on_lower.
  induction (split_on "." s) as [|p ps IH]; simpl; [reflexivity|].
  rewrite is_atom_lower, IH. reflexivity.
Qed.

Lemma ascii_lower_idempotent (s : string) :
  ascii_lower (ascii_lower s) = ascii_lower s.
Proof.
  induction s as [|c s IH]; simpl; [reflexivity|].
  destruct (lower_char_facts c) as (_ & _ & I). rewrite I, IH. reflexivity.
Qed.

(** *** Concatenation *)

Lemma append_assoc (a b c : string) : (a ++ b) ++ c = a ++ (b ++ c).
Proof. induction a as [|x a IH]; simpl; [reflexivity|]. rewrite IH. reflexivity. Qed.

Lemma append_inj_l (a b c : string) : a ++ b = a ++ c -> b = c.
Proof.
  induction a as [|x a IH]; simpl; [auto|]. intros H. inversion H. auto.
Qed.

Lemma ascii_lower_app (a b : string) :
  ascii_lower (a ++ b) = ascii_lower a ++ ascii_lower b.
Proof. induction a as [|x a IH]; simpl; [reflexivity|]. rewrite IH. reflexivity. Qed.

Lemma differs_true (d c : ascii) : differs d c = true -> c <> d.
Proof.
  unfold differs. rewrite negb_true_iff. intros H ->.
  rewrite Ascii.eqb_refl in H. discriminate H.
Qed.

Lemma first_separator (q p r1 r2 : string) (d c : ascii) :
  q ++ String d r1 = p ++ String c r2 ->
  all_chars (differs c) q = true ->
  all_chars (differs d) p = true ->
  c <> d -> False.
Proof.
  revert p. induction q as [|y q IH]; intros [|x p]; simpl; intros E Q P N.
  - inversion E. congruence.
  - inversion E. subst x. apply andb_true_iff in P. destruct P as [P _].
    apply differs_true in P. congruence.
  - inversion E. subst y. apply andb_true_iff in Q. destruct Q as [Q _].
    apply differs_true in Q. congruence.
  - inversion E. apply andb_true_iff in Q, P.
    apply (IH p); tauto.
Qed.

Lemma prefix_app (s1 s2 : string) :
  prefix s1 s2 = true -> exists r, s2 = s1 ++ r.
Proof.
  revert s2. induction s1 as [|a s1 IH]; intros s2; simpl.
  - intros _. exists s2. reflexivity.
  - destruct s2 as [|b s2]; [intros H; discriminate H|].
    simpl. destruct (ascii_dec a b) as [E|E]; [|intros H; discriminate H].
    subst b. intros H. destruct (IH s2 H) as [r ->]. exists r. reflexivity.
Qed.

Lemma parse_url_none (p rest : string) (c : ascii) :
  all_chars (differs ":") p = true ->
  all_chars (differs c) "https" = true ->
  c <> ":"%char ->
  parse_url (p ++ String c rest) = None.
Proof.
  intros P C N. unfold parse_url.
  assert (C' : all_chars (differs c) "http" = true).
  { simpl in C |- *. repeat rewrite andb_true_iff in *. tauto. }
  destruct (prefix "http://" (p ++ String c rest)) eqn:H1.
  { exfalso. apply prefix_app in H1. destruct H1 as [r E].
    apply (first_separator "http" p ("//" ++ r) rest ":" c);
      [symmetry; exact E | exact C' | exact P | exact N]. }
  destruct (prefix "https://" (p ++ String c rest)) eqn:H2.
  { exfalso. apply prefix_app in H2. destruct H2 as [r E].
    apply (first_separator "https" p ("//" ++ r) rest ":" c);
      [symmetry; exact E | exact C | exact P | exact N]. }
  reflexivity.
Qed.

(** *** What the grammar engine accepts *)

Lemma rsplit_at_last (lp dom : string) :
  all_chars (differs "@") lp = true ->
  all_chars (differs "@") dom = true ->
  rsplit_at (lp ++ String "@" dom) = Some (lp, dom).
Proof.
  intros L D. unfold rsplit_at.
  rewrite (split_on_first "@" lp dom L), (split_on_none "@" dom D).
  reflexivity.
Qed.

Lemma dot_atom_differs (d : ascii) (s : string) :
  dot_char d = false -> is_dot_atom s = true -> all_chars (differs d) s = true.
Proof.
  intros D H. apply is_dot_atom_chars in H.
  apply (all_chars_impl dot_char); [|exact H].
  intros c C. unfold differs. apply negb_true_iff.
  destruct (Ascii.eqb_spec c d) as [->|]; [congruence|reflexivity].
Qed.

Lemma phrase_differs (d : ascii) (s : string) :
  is_phrase_char d = false ->
  all_chars is_phrase_char s = true -> all_chars (differs d) s = true.
Proof.
  intros D. apply all_chars_impl.
  intros c C. unfold differs. apply negb_true_iff.
  destruct (Ascii.eqb_spec c d) as [->|]; [congruence|reflexivity].
Qed.

Lemma parse_addr_spec_accepts (lp dom : string) :
  is_dot_atom lp = true -> is_dot_atom dom = true ->
  parse_addr_spec (lp ++ String "@" dom) = Some (Mailbox "" lp dom).
Proof.
  intros L D. unfold parse_addr_spec.
  rewrite rsplit_at_last by (apply dot_atom_differs; auto).
  rewrite L, D. reflexivity.
Qed.

Lemma parse_name_addr_plain (lp dom : string) :
  is_dot_atom lp = true -> is_dot_atom dom = true ->
  parse_name_addr (lp ++ String "@" dom) = None.
Proof.
  intros L D. unfold parse_name_addr.
  rewrite split_on_none; [reflexivity|].
  rewrite all_chars_app. simpl.
  rewrite !dot_atom_differs by auto. reflexivity.
Qed.

Lemma parse_name_addr_accepts (name lp dom : string) :
  all_chars is_phrase_char name = true ->
  is_dot_atom lp = true -> is_dot_atom dom = true ->
  parse_name_addr (name ++ String "<" (lp ++ String "@" (dom ++ ">")))
  = Some (Mailbox (strip name) lp dom).
Proof.
  intros N L D. unfold parse_name_addr.
  rewrite split_on_first by (apply phrase_differs; auto).
  rewrite split_on_none.
  2:{ rewrite all_chars_app. simpl. rewrite all_chars_app. simpl.
      rewrite !dot_atom_differs by auto. reflexivity. }
  replace (lp ++ String "@" (dom ++ ">"))
    with ((lp ++ String "@" dom) ++ String ">" "").
  2:{ rewrite append_assoc. reflexivity. }
  rewrite split_on_first.
  2:{ rewrite all_chars_app. simpl. rewrite !dot_atom_differs by auto.
      reflexivity. }
  simpl split_on. cbv iota.
  rewrite parse_addr_spec_accepts by auto. rewrite N. reflexivity.
Qed.

(** *** What the grammar engine returns *)

Lemma parse_addr_spec_shape (s : string) (t : SyntaxTree) :
  parse_addr_spec s = Some t ->
  exists lp dom,
    t = Mailbox "" lp dom /\ is_dot_atom lp = true /\ is_dot_atom dom = true.
Proof.
  unfold parse_addr_spec. destruct (rsplit_at s) as [[lp dom]|]; [|discriminate].
  destruct (is_dot_atom lp) eqn:L; [|discriminate].
  destruct (is_dot_atom dom) eqn:D; [|discriminate].
  simpl. intros H. inversion H. eauto.
Qed.

Lemma parse_name_addr_shape (s : string) (t : SyntaxTree) :
  parse_name_addr s = Some t ->
  exists name lp dom,
    t = Mailbox name lp dom /\ all_chars is_phrase_char name = true
    /\ is_dot_atom lp = true /\ is_dot_atom dom = true.
Proof.
  unfold parse_name_addr.
  destruct (split_on "<" s) as [|name [|rest [|]]]; try discriminate.
  destruct (split_on ">" rest) as [|spec [|[|] [|]]]; try discriminate.
  destruct (parse_addr_spec spec) as [t'|] eqn:P; [|discriminate].
  apply parse_addr_spec_shape in P. destruct P as (lp & dom & -> & L & D).
  destruct (all_chars is_phrase_char name) eqn:N; [|discriminate].
  intros H. inversion H. exists (strip name), lp, dom.
  repeat split; auto. apply all_chars_strip. exact N.
Qed.

Lemma grammar_engine_mailbox (g : Grammar) (text dn lp dom : string) :
  grammar_engine g text = Parsed (Mailbox dn lp dom) ->
  all_chars is_phrase_char dn = true
  /\ is_dot_atom lp = true /\ is_dot_atom dom = true.
Proof.
  unfold grammar_engine. destruct g.
  - destruct (parse_addr_spec text) as [t|] eqn:P; [|discriminate].
    intros H. inversion H. subst t.
    apply parse_addr_spec_shape in P. destruct P as (l & d & E & L & D).
    inversion E. subst. auto.
  - unfold parse_mailbox_or_url, parse_url.
    destruct (_ && _); [discriminate|].
    destruct (parse_name_addr text) as [t|] eqn:P.
    + intros H. inversion H. subst t.
      apply parse_name_addr_shape in P.
      destruct P as (n & l & d & E & N & L & D). inversion E. subst. auto.
    + destruct (parse_addr_spec text) as [t|] eqn:Q; [|discriminate].
      intros H. inversion H. subst t.
      apply parse_addr_spec_shape in Q. destruct Q as (l & d & E & L & D).
      inversion E. subst. auto.
  - unfold parse_mailbox_or_url_list.
    destruct (parse_each _); discriminate.
Qed.

(** *** Display names in ASCII form *)

Lemma plain_char_facts (c : ascii) :
  plain_char c = true ->
  is_phrase_char c = true
  /\ (Ascii.eqb c " " || negb (is_special c)) = true.
Proof.
  destruct c as [[] [] [] [] [] [] [] []]; vm_compute; intros H;
    try discriminate H; repeat split.
Qed.

Lemma hex_digit_plain (c : ascii) :
  plain_char (hex_digit (N_of_ascii c / 16)) = true
  /\ plain_char (hex_digit (N_of_ascii c mod 16)) = true.
Proof.
  destruct c as [[] [] [] [] [] [] [] []]; vm_compute; repeat split.
Qed.

Lemma q_encode_plain (s : string) : all_chars plain_char (q_encode s) = true.
Proof.
  induction s as [|c s IH]; [reflexivity|].
  cbn [q_encode].
  destruct (is_ascii_char c && negb (is_special c)) eqn:E.
  - cbn [all_chars]. unfold plain_char at 1. rewrite E, IH. reflexivity.
  - cbn [all_chars]. destruct (hex_digit_plain c) as [H1 H2].
    rewrite H1, H2, IH. reflexivity.
Qed.

Lemma quote_phrase (s : string) :
  all_chars is_phrase_char s = true -> quote s = s.
Proof.
  intros H. unfold quote.
  rewrite (all_chars_impl is_phrase_char _ s); [reflexivity| |exact H].
  intros c C. apply phrase_char_facts in C. tauto.
Qed.

Lemma ace_display_name_phrase (dn : string) (n : Z) :
  all_chars is_phrase_char dn = true ->
  all_chars is_phrase_char (quote (mime_encode dn n)) = true.
Proof.
  intros H.
  assert (M : all_chars is_phrase_char (mime_encode dn n) = true).
  { unfold mime_encode. destruct (all_ascii dn); [exact H|].
    apply (all_chars_impl plain_char).
    - intros c C. apply plain_char_facts in C. tauto.
    - rewrite !all_chars_app, q_encode_plain. reflexivity. }
  rewrite quote_phrase; exact M.
Qed.

(** *** The idna codec on dot-atoms *)

Lemma idna_label_atom (l a : string) :
  is_atom l = true -> idna_label l = Some a ->
  is_atom a = true /\ (ascii_lower l = l -> ascii_lower a = a).
Proof.
  unfold idna_label. intros A.
  destruct (all_ascii l).
  - destruct (_ && _); [|discriminate].
    intros H. inversion H. subst a. auto.
  - destruct (String.eqb _ _); [|discriminate].
    intros H. inversion H. split; [reflexivity|]. intros _. reflexivity.
Qed.

Lemma idna_labels_cons (l l2 : string) (rest : list string) :
  idna_labels (l :: l2 :: rest)
  = match idna_label l, idna_labels (l2 :: rest) with
    | Some a, Some r => Some (a :: r)
    | _, _ => None
    end.
Proof. reflexivity. Qed.

Lemma idna_labels_atoms (ls : list string) :
  forall ds,
    forallb is_atom ls = true -> idna_labels ls = Some ds ->
    forallb is_atom ds = true
    /\ (map ascii_lower ls = ls -> map ascii_lower ds = ds)
    /\ length ds = length ls.
Proof.
  induction ls as [|l rest IH]; intros ds A H.
  - inversion H. auto.
  - cbn [forallb] in A. apply andb_true_iff in A. destruct A as [L R].
    destruct rest as [|l2 rest'].
    + cbn [idna_labels] in H.
      assert (E : is_empty l = false).
      { destruct l; [discriminate L|reflexivity]. }
      rewrite E in H.
      destruct (idna_label l) as [a|] eqn:I; [|discriminate].
      inversion H. subst ds.
      destruct (idna_label_atom l a L I) as [A1 A2].
      cbn [forallb map length]. rewrite A1. repeat split.
      intros M. injection M as M1. rewrite (A2 M1). reflexivity.
    + rewrite idna_labels_cons in H.
      destruct (idna_label l) as [a|] eqn:I; [|discriminate].
      destruct (idna_labels (l2 :: rest')) as [r|] eqn:J; [|discriminate].
      inversion H. subst ds.
      destruct (idna_label_atom l a L I) as [A1 A2].
      destruct (IH r R eq_refl) as (B1 & B2 & B3).
      cbn [forallb map length]. rewrite A1, B1, B3. repeat split.
      intros M. cbn [map] in M. injection M as M1 M2 M3.
      rewrite (A2 M1). f_equal. apply B2. cbn [map]. rewrite M2, M3.
      reflexivity.
Qed.

Lemma join_cons (p q : string) (rest : list string) :
  join "." (p :: q :: rest) = p ++ String "." (join "." (q :: rest)).
Proof. reflexivity. Qed.

Lemma atom_differs_dot (p : string) :
  is_atom p = true -> all_chars (differs ".") p = true.
Proof.
  unfold is_atom. intros H. apply andb_true_iff in H. destruct H as [_ H].
  apply (all_chars_impl is_atext); [|exact H].
  intros c C. unfold is_atext in C. apply andb_true_iff in C. tauto.
Qed.

Lemma split_join (ls : list string) :
  ls <> [] -> forallb is_atom ls = true -> split_on "." (join "." ls) = ls.
Proof.
  induction ls as [|p rest IH]; [congruence|]. intros _ A.
  cbn [forallb] in A. apply andb_true_iff in A. destruct A as [P R].
  destruct rest as [|q rest'].
  - apply split_on_none. apply atom_differs_dot. exact P.
  - rewrite join_cons, split_on_first by (apply atom_differs_dot; exact P).
    rewrite IH; [reflexivity|discriminate|exact R].
Qed.

Lemma ascii_lower_join (ls : list string) :
  ascii_lower (join "." ls) = join "." (map ascii_lower ls).
Proof.
  induction ls as [|p rest IH]; [reflexivity|].
  destruct rest as [|q rest']; [reflexivity|].
  cbn [map]. rewrite !join_cons, ascii_lower_app. cbn [ascii_lower].
  cbn [map] in IH. rewrite IH. reflexivity.
Qed.

Lemma idna_dot_atom (s d : string) :
  is_dot_atom s = true -> idna s = Some d ->
  is_dot_atom d = true /\ (ascii_lower s = s -> ascii_lower d = d).
Proof.
  unfold idna, is_dot_atom. intros A.
  destruct (idna_labels (split_on "." s)) as [ds|] eqn:I; [|discriminate].
  intros H. inversion H. subst d.
  destruct (idna_labels_atoms _ _ A I) as (B1 & B2 & B3).
  assert (N : ds <> []).
  { intros ->. pose proof (split_on_nonempty "." s) as X.
    destruct (split_on "." s); [congruence|discriminate B3]. }
  split.
  - rewrite split_join; auto.
  - intros L. rewrite ascii_lower_join. f_equal. apply B2.
    rewrite <- split_on_lower, L. reflexivity.
Qed.

(** *** Addresses that parse returns *)

Lemma parsed_address_shape
  (t : basestring) (a : bool) (w w1 : Z) (m : ParseMetrics Z)
  (e : EmailAddress) :
  parse t a w = (Ret (PyEmail e, m), w1) ->
  all_chars is_phrase_char (display_name e) = true
  /\ is_dot_atom (local_part e) = true /\ is_dot_atom (domain e) = true.
Proof.
  intros P.
  destruct (parse_returns t a w) as (m0 & w0 & P0).
  rewrite P in P0. inversion P0 as [[V M W]]. clear P0.
  unfold parse_value in V.
  destruct (is_empty (encode_utf8 t)); [discriminate|].
  destruct (bytes_len (encode_utf8 t) >? MAX_ADDRESS_LENGTH); [discriminate|].
  symmetry in V. apply lifted_email in V.
  destruct V as (dn & G & DN & _ & _).
  change (grammar_engine
            (if a then addr_spec_parser else mailbox_or_url_parser)
            (encode_utf8 t)
          = Parsed (Mailbox dn (local_part e) (domain e))) in G.
  apply grammar_engine_mailbox in G. destruct G as (N & L & D).
  change (display_name e = unquote dn) in DN.
  rewrite DN, unquote_phrase; auto.
Qed.

(** *** The text of full_spec() read again *)

Lemma engine_reads_plain (lp D : string) :
  is_dot_atom lp = true -> is_dot_atom D = true ->
  grammar_engine mailbox_or_url_parser (lp ++ "@" ++ D)
  = Parsed (Mailbox "" lp D).
Proof.
  intros L HD. unfold grammar_engine, parse_mailbox_or_url.
  change (lp ++ "@" ++ D) with (lp ++ String "@" D).
  rewrite parse_url_none;
    [| apply dot_atom_differs; auto | reflexivity | discriminate].
  rewrite parse_name_addr_plain, parse_addr_spec_accepts by auto.
  reflexivity.
Qed.

Lemma engine_reads_named (name lp D : string) :
  all_chars is_phrase_char name = true ->
  is_dot_atom lp = true -> is_dot_atom D = true ->
  grammar_engine mailbox_or_url_parser (name ++ " <" ++ lp ++ "@" ++ D ++ ">")
  = Parsed (Mailbox (strip (name ++ " ")) lp D).
Proof.
  intros N L HD. unfold grammar_engine, parse_mailbox_or_url.
  change (name ++ " <" ++ lp ++ "@" ++ D ++ ">")
    with (name ++ String " " (String "<" (lp ++ String "@" (D ++ ">")))).
  rewrite parse_url_none;
    [| apply phrase_differs; auto | reflexivity | discriminate].
  replace (name ++ String " " (String "<" (lp ++ String "@" (D ++ ">"))))
    with ((name ++ " ") ++ String "<" (lp ++ String "@" (D ++ ">")))
    by (rewrite append_assoc; reflexivity).
  rewrite parse_name_addr_accepts; auto.
  rewrite all_chars_app, N. reflexivity.
Qed.

Lemma reparse_text (name lp D text : string) (w : Z) :
  all_chars is_phrase_char name = true ->
  is_dot_atom lp = true -> is_dot_atom D = true ->
  text = lp ++ "@" ++ D \/ text = name ++ " <" ++ lp ++ "@" ++ D ++ ">" ->
  bytes_len text <= MAX_ADDRESS_LENGTH ->
  exists dn' m' w',
    parse (Str text) false w
    = (Ret (PyEmail (mkEmailAddress dn' lp D), m'), w').
Proof.
  intros N L HD T B.
  assert (G : exists dn,
             grammar_engine mailbox_or_url_parser text
             = Parsed (Mailbox dn lp D)).
  { destruct T as [-> | ->].
    - eexists. apply engine_reads_plain; auto.
    - eexists. apply engine_reads_named; auto. }
  destruct G as [dn G].
  assert (NT : text <> "").
  { destruct T as [-> | ->]; simpl; apply append_nonempty. }
  destruct (@parse_reads_mailbox Z Z runtime collaborators
              text dn lp D w NT B G) as (m' & w' & P).
  - apply is_dot_atom_nonempty. exact L.
  - apply is_dot_atom_nonempty. exact HD.
  - eauto.
Qed.

Lemma address_eqb (lp d1 d2 : string) :
  String.eqb (ascii_lower (lp ++ "@" ++ ascii_lower d1))
             (ascii_lower (lp ++ "@" ++ ascii_lower d2))
  = String.eqb (ascii_lower d1) (ascii_lower d2).
Proof.
  rewrite !ascii_lower_app, !ascii_lower_idempotent.
  destruct (String.eqb_spec (ascii_lower d1) (ascii_lower d2)) as [E|E].
  - rewrite E. apply String.eqb_refl.
  - apply String.eqb_neq. intros H. apply E.
    apply append_inj_l in H. apply append_inj_l in H. exact H.
Qed.


End RoundTrip.

(** ** Running the code *)

Example parse_name_addr_runs :
  fst (parse (Str "John Smith <john@smith.com>") false 0)
  = Ret (PyEmail (mkEmailAddress "John Smith" "john" "smith.com"),
         mkParseMetrics 1).
Proof. vm_compute. reflexivity. Qed.

Example parse_foo_runs :
  fst (parse (Str "foo") false 0) = Ret (PyNone, mkParseMetrics 0).
Proof. vm_compute. reflexivity. Qed.

Example parse_url_runs :
  fst (parse (Str "http://host.com/post?q") false 0)
  = Ret (PyUrl (mkUrlAddress "http://host.com/post?q"), mkParseMetrics 1).
Proof. vm_compute. reflexivity. Qed.

Example full_spec_runs :
  full_spec (mkEmailAddress "" "john" "Smith.COM") = Ret "john@smith.com".
Proof. vm_compute. reflexivity. Qed.

Example is_email_runs :
  fst (is_email (Str "john@smith.com") 0) = Ret true
  /\ fst (is_email (Str "John <john@smith.com>") 0) = Ret false.
Proof. split; vm_compute; reflexivity. Qed.

Example validate_address_no_exchanger_runs :
  fst (drop_metrics
         (validate_address (PyText (Str "user@nonexistent-domain.invalid")))
         0)
  = Ret PyNone.
Proof. vm_compute. reflexivity. Qed.

(** A display name that is not ASCII becomes an encoded word, three times
    as long. *)
Example full_spec_encoded_name_runs :
  full_spec (mkEmailAddress ("J" ++ Sample.u_diaeresis ++ "rg") "a" "b")
  = Ret "=?utf-8?q?J=C3=BCrg?= <a@b>".
Proof. vm_compute. reflexivity. Qed.

(** A domain label of 64 bytes: the parse succeeds, the codec raises. *)
Example full_spec_long_label_runs :
  fst (parse (Str Sample.long_label_address) false 0)
  = Ret (PyEmail (mkEmailAddress "" "a" (Sample.doubled 6 "a" ++ ".com")),
         mkParseMetrics 1)
  /\ full_spec (mkEmailAddress "" "a" (Sample.doubled 6 "a" ++ ".com"))
     = Raise UnicodeError.
Proof. split; vm_compute; reflexivity. Qed.

(** A URL in the input: [paddr.domain] does not exist on a [UrlAddress]. *)
Example validate_list_url_runs :
  fst (validate_list (PyText (Str "http://host.com/post?q")) true 0)
  = Raise AttributeError.
Proof. vm_compute. reflexivity. Qed.

(** ** The properties on concrete inputs *)

Lemma validate_address_pipeline_witness :
  fst (drop_metrics (validate_address (PyText (Str "user.1234@gmail.com"))) 0)
  = Ret (PyEmail (mkEmailAddress "" "user1234" "gmail.com"))
  /\ fst (drop_metrics (validate_address (PyText (Str "user@gmail.com"))) 0)
     = Ret PyNone.
Proof.
  split.
  - destruct (validate_address_pipeline (Str "user.1234@gmail.com") 0)
      as [_ H].
    destruct (H ["user1234"; "gmail.com"] eq_refl) as (_ & _ & _ & _ & H4).
    apply (H4 "gmail-smtp-in.l.google.com").
    + vm_compute. discriminate.
    + vm_compute. reflexivity.
    + right. exists Sample.gmail_plugin. split.
      * reflexivity.
      * vm_compute. discriminate.
  - destruct (validate_address_pipeline (Str "user@gmail.com") 0) as [_ H].
    destruct (H ["user"; "gmail.com"] eq_refl) as (_ & _ & _ & H3 & _).
    apply (H3 "gmail-smtp-in.l.google.com" Sample.gmail_plugin).
    + vm_compute. discriminate.
    + vm_compute. reflexivity.
    + reflexivity.
    + vm_compute. reflexivity.
Defined.

Lemma parse_list_sequence_partition_witness :
  (exists m w',
      parse_list (PyList Sample.mixed_items) false true 0 =
      (Ret (WithUnparsed
              (PyAddressList [PyEmail Sample.a_b; PyEmail Sample.d_e])
              [PyText (Str "C"); PyInt 3] m), w'))
  /\ parse_list (PyList Sample.many_items) false true 0 =
     (Ret (WithUnparsed (PyAddressList []) [PyList Sample.many_items]
             no_parse_time), 0).
Proof.
  split.
  - destruct (parse_list_sequence_partition Sample.mixed_items false 0)
      as [H _].
    destruct H as (parsed & unparsed & m & w' & E & Hp & Hu & _).
    + vm_compute. discriminate.
    + exists m, w'. rewrite E, Hp, Hu. vm_compute. reflexivity.
  - destruct (parse_list_sequence_partition Sample.many_items false 0)
      as [_ H].
    apply H. vm_compute. reflexivity.
Defined.

(** C2, as stated, fails on a list of 1025 items: the parsed and unparsed
    collections have one element in all. *)
Lemma parse_list_over_cap_not_partitioned :
  ~ (exists parsed unparsed m,
        fst (parse_list (PyList Sample.many_items) false true 0)
        = Ret (WithUnparsed (PyAddressList parsed) unparsed m)
        /\ (length parsed + length unparsed
            = length Sample.many_items)%nat).
Proof.
  intros (parsed & unparsed & m & E & L).
  rewrite (@parse_list_over_cap Z Z _ _) in E by (vm_compute; reflexivity).
  cbn [fst] in E. inversion E; subst.
  unfold Sample.many_items in L. rewrite repeat_length in L.
  discriminate L.
Defined.

Lemma EmailAddress_eq_hash_witness :
  EmailAddress_eq (mkEmailAddress "" "a" "Host.COM")
    (PyEmail (mkEmailAddress "" "a" "host.com")) 0 = (Ret true, 0)
  /\ EmailAddress_hash (mkEmailAddress "" "a" "Host.COM")
     = EmailAddress_hash (mkEmailAddress "" "a" "host.com").
Proof.
  destruct (EmailAddress_eq_hash (mkEmailAddress "" "a" "Host.COM")
              (mkEmailAddress "" "a" "host.com") 0) as (r & E & _ & _ & H).
  destruct (H eq_refl eq_refl) as [R Hh]. subst r.
  split; [exact E | exact Hh].
Defined.

Lemma length_ceilings_witness :
  parse (Str "") false 0 = (Ret (PyNone, no_parse_time), 0)
  /\ parse (Str Sample.long_address) false 0 = (Ret (PyNone, no_parse_time), 0)
  /\ parse (Str "john@smith.com") true 0
     = run_parser addr_spec_parser "john@smith.com" 0
  /\ parse_discrete_list (Str Sample.long_list) 0
     = (Ret (PyNone, no_parse_time), 0)
  /\ parse_list (PyText (Str Sample.long_list)) false true 0
     = (Ret (WithUnparsed (PyAddressList []) [PyText (Str Sample.long_list)]
               no_parse_time), 0)
  /\ parse_discrete_list (Str "a@b, c@d") 0
     = run_parser mailbox_or_url_list_parser "a@b, c@d" 0.
Proof.
  destruct (@length_ceilings Z Z _ _)
    as (_ & _ & _ & H1 & H2 & H3 & H4 & H5).
  split; [apply H1; reflexivity|].
  split; [apply H2; vm_compute; reflexivity|].
  split; [apply (H3 (Str "john@smith.com") true 0);
          [discriminate | vm_compute; discriminate]|].
  assert (L : MAX_ADDRESS_LIST_LENGTH < py_len (Str Sample.long_list))
    by (vm_compute; reflexivity).
  split; [apply (H4 _ 0 L)|].
  split; [apply (H4 _ 0 L)|].
  apply (H5 (Str "a@b, c@d") 0); [discriminate | vm_compute; discriminate].
Defined.

(** C5, as stated, fails on the empty string: [parse_discrete_list] gives
    no result for it, and the unparsed list is empty, not the string. *)
Lemma parse_list_empty_string_not_unparsed :
  ~ (fst (parse_discrete_list (Str "") 0) = Ret (PyNone, no_parse_time) ->
     exists mt,
       fst (parse_list (PyText (Str "")) false true 0)
       = Ret (WithUnparsed (PyAddressList []) [PyText (Str "")] mt)).
Proof.
  intros H. destruct (H eq_refl) as [mt E].
  vm_compute in E. discriminate E.
Defined.

Lemma parse_list_string_partition_witness :
  (exists mt w',
      parse_list_partition (PyText (Str "A <a@b>, D <d@e>")) 0 =
      (Ret (PyAddressList [PyEmail Sample.a_b; PyEmail Sample.d_e], [], mt),
       w'))
  /\ (exists mt w',
        parse_list_partition (PyText (Str "A <a@b>, C, D <d@e>")) 0 =
        (Ret (PyAddressList [], [PyText (Str "A <a@b>, C, D <d@e>")], mt),
         w')).
Proof.
  split.
  - destruct (parse_list_string_partition (Str "A <a@b>, D <d@e>") 0)
      as (m & w' & _ & _ & H & _); [discriminate|].
    destruct H as [mt E]; [vm_compute; reflexivity|].
    exists mt, w'. rewrite E. vm_compute. reflexivity.
  - destruct (parse_list_string_partition (Str "A <a@b>, C, D <d@e>") 0)
      as (m & w' & _ & _ & _ & H); [discriminate|].
    destruct H as [mt E]; [vm_compute; reflexivity|].
    exists mt, w'. exact E.
Defined.



Lemma to_ace_encoding_failure_witness :
  to_ace (mkEmailAddress "" ("j" ++ Sample.u_diaeresis) "smith.com")
  = Raise ValueError
  /\ full_spec (mkEmailAddress "" ("j" ++ Sample.u_diaeresis) "smith.com")
     = Ret ("j" ++ Sample.u_diaeresis ++ "@smith.com").
Proof.
  destruct (to_ace_encoding_failure
              (mkEmailAddress "" ("j" ++ Sample.u_diaeresis) "smith.com"))
    as (H1 & _ & _ & H4).
  split.
  - apply H1. vm_compute. reflexivity.
  - rewrite H4. vm_compute. reflexivity.
Defined.

(** C8: the code on [validate_list(['a..bcdefg@gmail.com'], as_tuple=True,
    metrics=True)].  The item does not parse; in the second loop (reached
    at clock 3) [validate_address] accepts it and reports its five
    metrics; the metrics [validate_list] returns hold only the time of the
    first parse, and nothing of what that call reported. *)
Theorem validate_list_repair_metrics_lost :
  validate_address (PyText (Str "a..bcdefg@gmail.com")) 3
  = (Ret (PyEmail (mkEmailAddress "" "abcdefg" "gmail.com"),
          mkValidateMetrics 3 3 2 1 1), 15)
  /\ validate_list (PyList [PyText (Str "a..bcdefg@gmail.com")]) true 0
     = (Ret (WithUnparsed
               (PyAddressList
                  [PyEmail (mkEmailAddress "" "abcdefg" "gmail.com")])
               [] (mkValidateMetrics 2 0 0 0 0)), 15).
Proof. split; vm_compute; reflexivity. Qed.

Lemma EmailAddress_eq_UrlAddress_witness :
  EmailAddress_eq (mkEmailAddress "" "a" "host.com")
    (PyUrl (mkUrlAddress "A@Host.COM")) 0 = (Ret true, 0)
  /\ UrlAddress_eq (mkUrlAddress "A@Host.COM")
       (PyEmail (mkEmailAddress "" "a" "host.com")) 0 = (Ret false, 0)
  /\ UrlAddress_eq (mkUrlAddress "a@host.com")
       (PyEmail (mkEmailAddress "" "a" "Host.COM")) 0 = (Ret true, 0).
Proof.
  split; [|split].
  - destruct (EmailAddress_eq_UrlAddress (mkEmailAddress "" "a" "host.com")
                (mkUrlAddress "A@Host.COM") 0) as (H & _).
    apply H. vm_compute. reflexivity.
  - destruct (EmailAddress_eq_UrlAddress (mkEmailAddress "" "a" "host.com")
                (mkUrlAddress "A@Host.COM") 0) as (_ & _ & _ & _ & H & _).
    apply H. vm_compute. discriminate.
  - destruct (EmailAddress_eq_UrlAddress (mkEmailAddress "" "a" "Host.COM")
                (mkUrlAddress "a@host.com") 0) as (_ & _ & _ & H & _).
    apply H. vm_compute. reflexivity.
Defined.

(** C9, as stated, fails on the address [a@host.com] and the URL object
    with address [A@host.com]: the two addresses are equal up to case and
    [email == url] is [True], but the two are not interchangeable:
    [url == email] is [False]. *)
Lemma address_classes_not_interchangeable :
  unicode_lower (url_address (mkUrlAddress "A@host.com"))
  = unicode_lower (address (mkEmailAddress "" "a" "host.com"))
  /\ EmailAddress_eq (mkEmailAddress "" "a" "host.com")
       (PyUrl (mkUrlAddress "A@host.com")) 0 = (Ret true, 0)
  /\ ~ (UrlAddress_eq (mkUrlAddress "A@host.com")
          (PyEmail (mkEmailAddress "" "a" "host.com")) 0
        = EmailAddress_eq (mkEmailAddress "" "a" "host.com")
            (PyUrl (mkUrlAddress "A@host.com")) 0).
Proof.
  split; [vm_compute; reflexivity|].
  split; [vm_compute; reflexivity|].
  vm_compute. discriminate.
Defined.

Lemma parse_list_other_inputs_witness :
  parse_list PyNone false true 0
  = (Ret (WithUnparsed (PyAddressList []) [] no_parse_time), 0)
  /\ parse_list (PyText (Str "")) false true 0
     = (Ret (WithUnparsed (PyAddressList []) [] no_parse_time), 0)
  /\ parse_list (PyList []) false true 0
     = (Ret (WithUnparsed (PyAddressList []) [] no_parse_time), 0)
  /\ parse_list (PyInt 5) false true 0
     = (Ret (WithUnparsed (PyAddressList []) [PyInt 5] no_parse_time), 0)
  /\ parse_list (PyEmail Sample.a_b) false true 0
     = (Ret (WithUnparsed (PyAddressList []) [PyEmail Sample.a_b]
               no_parse_time), 0).
Proof.
  destruct (@parse_list_other_inputs Z Z _ _) as [F T].
  repeat split; try (apply F; reflexivity);
    apply T; try reflexivity; intros; discriminate.
Defined.

(** ** Further properties of the module *)

Section MoreProperties.

Context {World Time : Type}.
Context {RT : PyRuntime World Time}.
Context {CO : Collaborators World Time}.

(** *** ASCII forms *)

Lemma all_ascii_app (a b : string) :
  all_ascii (a ++ b) = all_ascii a && all_ascii b.
Proof.
  induction a as [|c a IH]; simpl; [reflexivity|].
  rewrite IH. apply andb_assoc.
Qed.

Lemma full_spec_raises (e : EmailAddress) (x : exn) :
  full_spec e = Raise x -> x = UnicodeError.
Proof.
  unfold full_spec, to_ace, requires_non_ascii.
  destruct (negb (is_pure_ascii (local_part e))); [discriminate|].
  destruct (idna_encode _) as [d|]; [|congruence].
  destruct (negb (is_empty (display_name e))).
  - destruct (ascii_decode (smart_quote _)) eqn:X, (ascii_decode d) eqn:Y;
      try discriminate; intros H; inversion H; subst;
      first [ eapply ascii_decode_raises; exact X
            | eapply ascii_decode_raises; exact Y ].
  - destruct (ascii_decode d) eqn:Y; [discriminate|].
    intros H; inversion H; subst. eapply ascii_decode_raises; exact Y.
Qed.

Lemma ascii_decode_returns (s r : string) :
  ascii_decode s = Ret r -> r = s /\ all_ascii s = true.
Proof.
  unfold ascii_decode. destruct (all_ascii s); [|discriminate].
  intros H; inversion H; auto.
Qed.

(** X1: what [to_ace] returns is ASCII only; what [full_spec] returns is
    ASCII only exactly when the local part is ASCII; and an address whose
    local part is not ASCII is itself not ASCII. *)
Theorem ascii_forms (e : EmailAddress) :
  (forall s, to_ace e = Ret s -> all_ascii s = true)
  /\ (forall s, full_spec e = Ret s ->
               (all_ascii s = true <-> requires_non_ascii e = false))
  /\ (requires_non_ascii e = true -> contains_non_ascii e = true).
Proof.
  assert (A : forall s, to_ace e = Ret s ->
                        all_ascii s = true /\ requires_non_ascii e = false).
  { intros s. unfold to_ace, requires_non_ascii, is_pure_ascii.
    destruct (all_ascii (local_part e)) eqn:L; [|discriminate].
    simpl negb. cbv iota.
    destruct (idna_encode _) as [d|]; [|discriminate].
    destruct (negb (is_empty (display_name e))).
    - destruct (ascii_decode (smart_quote _)) as [n|] eqn:X; [|discriminate].
      destruct (ascii_decode d) as [d'|] eqn:Y; [|discriminate].
      apply ascii_decode_returns in X, Y. destruct X as [-> X], Y as [-> Y].
      intros H; inversion H; subst. split; [|reflexivity].
      repeat first [rewrite all_ascii_app | progress simpl].
      rewrite X, L, Y. reflexivity.
    - destruct (ascii_decode d) as [d'|] eqn:Y; [|discriminate].
      apply ascii_decode_returns in Y. destruct Y as [-> Y].
      intros H; inversion H; subst. split; [|reflexivity].
      repeat first [rewrite all_ascii_app | progress simpl].
      rewrite L, Y. reflexivity. }
  split; [intros s H; apply (A s H)|]. split.
  - intros s. unfold full_spec.
    destruct (requires_non_ascii e) eqn:R.
    + intros H; inversion H; subst. split; [|discriminate].
      unfold requires_non_ascii, is_pure_ascii in R.
      apply negb_true_iff in R. unfold to_unicode.
      destruct (negb (is_empty (display_name e)));
        repeat first [rewrite all_ascii_app | progress simpl];
        rewrite R; rewrite ?andb_false_r; discriminate.
    + intros H. split; [reflexivity|]. intros _. apply (A s H).
  - unfold requires_non_ascii, contains_non_ascii, is_pure_ascii, address.
    rewrite !negb_true_iff. intros R. rewrite all_ascii_app, R. reflexivity.
Qed.

(** *** Equality *)

(** X2: on [EmailAddress] values [==] never raises and is reflexive,
    symmetric and transitive; it does not look at the display name. *)
Theorem EmailAddress_eq_equivalence (a b c : EmailAddress) (w : World) :
  EmailAddress_eq a (PyEmail a) w = (Ret true, w)
  /\ (EmailAddress_eq a (PyEmail b) w = (Ret true, w) ->
      EmailAddress_eq b (PyEmail a) w = (Ret true, w))
  /\ (EmailAddress_eq a (PyEmail b) w = (Ret true, w) ->
      EmailAddress_eq b (PyEmail c) w = (Ret true, w) ->
      EmailAddress_eq a (PyEmail c) w = (Ret true, w))
  /\ (forall dn,
        EmailAddress_eq a
          (PyEmail (mkEmailAddress dn (local_part a) (domain a))) w
        = (Ret true, w))
  /\ (exists r, EmailAddress_eq a (PyEmail b) w = (Ret r, w)).
Proof.
  assert (E : forall x y,
    EmailAddress_eq x (PyEmail y) w
    = (Ret (String.eqb (unicode_lower (address x))
              (unicode_lower (address y))), w)) by reflexivity.
  rewrite !E. repeat split.
  - rewrite String.eqb_refl. reflexivity.
  - intros H. inversion H as [H']. apply String.eqb_eq in H'.
    rewrite H', String.eqb_refl. reflexivity.
  - intros H1 H2. inversion H1 as [H1']. inversion H2 as [H2'].
    apply String.eqb_eq in H1', H2'.
    rewrite H1', H2', String.eqb_refl. reflexivity.
  - intros dn. rewrite E. unfold address. cbn [local_part domain].
    rewrite String.eqb_refl. reflexivity.
  - eexists. reflexivity.
Qed.

(** X3: equality between the two classes depends on the side.  When the
    address of a [UrlAddress] and the canonical address of an
    [EmailAddress] are equal up to case but not equal, [email == url] is
    [True] and [url == email] is [False]. *)
Theorem eq_across_classes (e : EmailAddress) (u : UrlAddress) (w : World) :
  unicode_lower (url_address u) = unicode_lower (address e) ->
  url_address u <> address e ->
  EmailAddress_eq e (PyUrl u) w = (Ret true, w)
  /\ UrlAddress_eq u (PyEmail e) w = (Ret false, w).
Proof.
  intros L N. split.
  - unfold EmailAddress_eq, bind, ret, lift_outcome. cbn.
    rewrite L, String.eqb_refl. reflexivity.
  - unfold UrlAddress_eq, bind, ret, lift_outcome. cbn.
    apply String.eqb_neq in N. rewrite N. reflexivity.
Qed.

(** *** Lifting parser results *)

Lemma collect_returns {A B} (f : A -> Outcome B) (l : list A) (ys : list B) :
  collect f l = Ret ys <-> Forall2 (fun x y => f x = Ret y) l ys.
Proof.
  revert ys; induction l as [|x l IH]; intros ys; simpl.
  - split.
    + intros H; inversion H; constructor.
    + intros H; inversion H; reflexivity.
  - split.
    + destruct (f x) as [y|] eqn:X; [|discriminate].
      destruct (collect f l) as [ys'|] eqn:C; [|discriminate].
      intros H; inversion H; subst. constructor; [exact X|].
      apply IH. reflexivity.
    + intros H; inversion H as [|? y ? ys' X F]; subst.
      rewrite X. apply IH in F. rewrite F. reflexivity.
Qed.

Lemma collect_raises {A B} (f : A -> Outcome B) (l : list A) (e : exn) :
  collect f l = Raise e -> exists x, In x l /\ f x = Raise e.
Proof.
  induction l as [|x l IH]; simpl; [discriminate|].
  destruct (f x) as [y|e'] eqn:X.
  - destruct (collect f l) as [ys|e'']; [discriminate|].
    intros H; inversion H; subst.
    destruct (IH eq_refl) as (z & I & Z). exists z. auto.
  - intros H; inversion H; subst. exists x. auto.
Qed.

Lemma collect_raising_item {A B} (f : A -> Outcome B) (l : list A) x e :
  In x l -> f x = Raise e -> exists e', collect f l = Raise e'.
Proof.
  induction l as [|y l IH]; simpl; [intros []|].
  intros [->|I] X.
  - rewrite X. eexists. reflexivity.
  - destruct (f y); [|eexists; reflexivity].
    destruct (IH I X) as [e' C]. rewrite C. eexists. reflexivity.
Qed.

Lemma lift_list (items : list SyntaxTree) :
  _lift_parser_result (TreeList items) =
  match collect _lift_parser_result items with
  | Ret vs => Ret (PyAddressList vs)
  | Raise e => Raise e
  end.
Proof.
  cbn [_lift_parser_result].
  match goal with
  | |- match ?f items with _ => _ end = _ =>
      assert (E : forall l, f l = collect _lift_parser_result l)
  end.
  { induction l as [|t l IH]; [reflexivity|]. cbn [collect].
    rewrite <- IH. reflexivity. }
  rewrite E. reflexivity.
Qed.

(** X5: a list result is lifted all or nothing.  The lifted value is an
    [AddressList] with one element per item of the tree, in order, when
    every item lifts; as soon as one item does not (a mailbox without
    local part or domain, a URL without address) the whole list raises
    [SyntaxError], which [parse] and [parse_discrete_list] turn into no
    result. *)
Theorem lift_list_all_or_nothing (items : list SyntaxTree) :
  (forall v,
      _lift_parser_result (TreeList items) = Ret v <->
      exists vs, v = PyAddressList vs
                 /\ Forall2 (fun t x => _lift_parser_result t = Ret x)
                      items vs)
  /\ (forall vs,
        _lift_parser_result (TreeList items) = Ret (PyAddressList vs) ->
        length vs = length items)
  /\ (_lift_parser_result (TreeList items) = Raise SyntaxError <->
      exists t, In t items /\ _lift_parser_result t = Raise SyntaxError)
  /\ (forall g text,
        parser_parse g text = Parsed (TreeList items) ->
        (exists t, In t items /\ _lift_parser_result t = Raise SyntaxError) ->
        lifted g text = PyNone).
Proof.
  rewrite lift_list.
  assert (R : (exists t, In t items
                         /\ _lift_parser_result t = Raise SyntaxError) ->
              collect _lift_parser_result items = Raise SyntaxError).
  { intros (t & I & X).
    destruct (collect_raising_item _ _ _ _ I X) as [e' C].
    destruct (collect_raises _ _ _ C) as (t' & _ & X').
    apply lift_raises_SyntaxError in X'. subst e'. exact C. }
  repeat split.
  - destruct (collect _lift_parser_result items) as [vs|] eqn:C;
      [|discriminate].
    intros H; inversion H; subst. exists vs. split; [reflexivity|].
    apply collect_returns. exact C.
  - intros (vs & -> & F). apply collect_returns in F. rewrite F.
    reflexivity.
  - intros vs. destruct (collect _lift_parser_result items) as [vs'|] eqn:C;
      [|discriminate].
    intros H; inversion H; subst. apply collect_returns in C.
    symmetry. eapply Forall2_length; eauto.
  - destruct (collect _lift_parser_result items) as [vs|e] eqn:C;
      [discriminate|].
    intros H; inversion H; subst. apply collect_raises. exact C.
  - intros H. rewrite (R H). reflexivity.
  - intros g text G H. unfold lifted. rewrite G, lift_list, (R H).
    reflexivity.
Qed.

Lemma lift_constructed (t : SyntaxTree) :
  forall v, _lift_parser_result t = Ret v -> constructed v = true.
Proof.
  induction t using SyntaxTree_nested_ind; intros v.
  - cbn [_lift_parser_result]. unfold EmailAddress_init.
    destruct (negb (is_empty lp) && negb (is_empty dom)) eqn:N;
      [|discriminate].
    intros E; inversion E; subst. exact N.
  - cbn [_lift_parser_result]. unfold UrlAddress_init.
    destruct (negb (is_empty a)) eqn:N; [|discriminate].
    intros E; inversion E; subst. exact N.
  - rewrite lift_list.
    destruct (collect _lift_parser_result items) as [vs|] eqn:C;
      [|discriminate].
    intros E; inversion E; subst. clear E. cbn [constructed].
    apply collect_returns in C. apply forallb_forall.
    revert H. induction C as [|t x l vs X F IH]; intros H; [intros ? []|].
    inversion H as [|? ? Ht Hl]; subst.
    intros y [<-|I]; [apply (Ht _ X)|apply (IH Hl); assumption].
  - simpl. intros E; inversion E; reflexivity.
Qed.

Lemma lifted_constructed (g : Grammar) (text : string) :
  constructed (lifted g text) = true.
Proof.
  unfold lifted. destruct (parser_parse g text) as [t| | |]; try reflexivity.
  destruct (_lift_parser_result t) as [v|] eqn:L; [|reflexivity].
  eapply lift_constructed; eauto.
Qed.

Lemma parse_value_constructed (t : basestring) (a : bool) :
  constructed (parse_value t a) = true.
Proof.
  unfold parse_value. destruct (is_empty _); [reflexivity|].
  destruct (_ >? _); [reflexivity|]. apply lifted_constructed.
Qed.

(** X4: [email == other] for the other kinds of operand: [False] for
    every false value; for a string, [False] when [parse] does not accept
    it, the comparison with the address parsed from it when that is an
    email address or a URL, and [AttributeError] if [parse] gave a
    non-empty list; [AttributeError] for a true value that is neither a
    string nor an address (it has no [address]). *)
Theorem EmailAddress_eq_other_operands (e : EmailAddress) (w : World) :
  (forall v, truthy v = false ->
             EmailAddress_eq e v w = (Ret false, w))
  /\ (forall t, truthy (parse_value t false) = false ->
                exists w', EmailAddress_eq e (PyText t) w = (Ret false, w'))
  /\ (forall t b, parse_value t false = PyEmail b ->
                  exists w',
                    EmailAddress_eq e (PyText t) w
                    = (Ret (String.eqb (unicode_lower (address e))
                              (unicode_lower (address b))), w'))
  /\ (forall t u, parse_value t false = PyUrl u ->
                  exists w',
                    EmailAddress_eq e (PyText t) w
                    = (Ret (String.eqb (unicode_lower (address e))
                              (unicode_lower (url_address u))), w'))
  /\ (forall t c, parse_value t false = PyAddressList c -> c <> [] ->
                  exists w',
                    EmailAddress_eq e (PyText t) w
                    = (Raise AttributeError, w'))
  /\ (forall t, exists w',
        EmailAddress_eq e (PyText t) w
        = (match parse_value t false with
           | PyEmail b =>
               Ret (String.eqb (unicode_lower (address e))
                      (unicode_lower (address b)))
           | PyUrl u =>
               Ret (String.eqb (unicode_lower (address e))
                      (unicode_lower (url_address u)))
           | PyAddressList (_ :: _) => Raise AttributeError
           | _ => Ret false
           end, w'))
  /\ (forall v, truthy v = true -> is_address v = false ->
                (forall t, v <> PyText t) ->
                EmailAddress_eq e v w = (Raise AttributeError, w)).
Proof.
  assert (S : forall t, exists w',
    EmailAddress_eq e (PyText t) w
    = ((if truthy (parse_value t false)
        then a <- lift_outcome (getattr_address (parse_value t false)) ;;
             ret (String.eqb (unicode_lower (address e)) (unicode_lower a))
        else ret false) w')).
  { intros t. unfold EmailAddress_eq.
    destruct (parse_returns t false w) as (m & w' & P).
    pose proof (drop_metrics_returns _ _ _ _ P) as P'. cbn [fst] in P'.
    rewrite (bind_returns _ _ _ _ _ P'). exists w'. reflexivity. }
  repeat split.
  - intros v F. destruct v as [ |b|n|t|l|l|e'|u|c]; try discriminate;
      unfold EmailAddress_eq, bind, ret; cbn;
      try (cbn in F; rewrite F; reflexivity); try reflexivity.
    (* the empty string: parse returns None without reading the clock *)
    cbn in F. apply negb_false_iff, is_empty_true in F.
    unfold drop_metrics, bind, parse. rewrite F. reflexivity.
  - intros t F. unfold EmailAddress_eq.
    destruct (parse_returns t false w) as (m & w' & P).
    pose proof (drop_metrics_returns _ _ _ _ P) as P'. cbn [fst] in P'.
    rewrite (bind_returns _ _ _ _ _ P'), F. exists w'. reflexivity.
  - intros t b V. destruct (S t) as [w' E]. exists w'.
    rewrite E, V. reflexivity.
  - intros t u V. destruct (S t) as [w' E]. exists w'.
    rewrite E, V. reflexivity.
  - intros t c V N. destruct (S t) as [w' E]. exists w'.
    rewrite E, V. destruct c; [congruence|reflexivity].
  - intros t. destruct (S t) as [w' E]. exists w'. rewrite E.
    pose proof (parse_value_constructed t false) as C.
    destruct (parse_value t false) as [ |b|n|t'|l|l|b|u|[|x c]];
      try reflexivity; discriminate C.
  - intros v T A NT.
    destruct v as [ |b|n|t|l|l|e'|u|c]; try discriminate;
      unfold EmailAddress_eq, bind, ret, lift_outcome; cbn;
      try (cbn in T; rewrite T; reflexivity).
    exfalso. eapply NT. reflexivity.
Qed.

(** X6: every value that [parse] or [parse_discrete_list] returns is
    [None], an [EmailAddress] with a local part and a domain, a
    [UrlAddress] with an address, or an [AddressList] of such values:
    never a string or another object, and never an address with an empty
    part. *)
Theorem parse_results_constructed (t : basestring) (a : bool) (w : World) :
  (forall v m w', parse t a w = (Ret (v, m), w') -> constructed v = true)
  /\ (forall v m w',
        parse_discrete_list t w = (Ret (v, m), w') -> constructed v = true)
  /\ (forall e m w',
        parse t a w = (Ret (PyEmail e, m), w') ->
        local_part e <> "" /\ domain e <> "")
  /\ (forall u m w',
        parse t a w = (Ret (PyUrl u, m), w') -> url_address u <> "").
Proof.
  assert (P : forall v m w',
    parse t a w = (Ret (v, m), w') -> constructed v = true).
  { intros v m w' H. destruct (parse_returns t a w) as (m0 & w0 & E).
    rewrite E in H. inversion H; subst. apply parse_value_constructed. }
  split; [exact P|]. split.
  - intros v m w' H.
    destruct (parse_discrete_list_returns t w) as (m0 & w0 & E).
    rewrite E in H. inversion H; subst.
    unfold parse_discrete_list_value. destruct (is_empty _); [reflexivity|].
    destruct (_ >? _); [reflexivity|]. apply lifted_constructed.
  - split.
    + intros e m w' H. apply P in H. cbn [constructed] in H.
      apply andb_true_iff in H. destruct H as [L D].
      apply negb_true_iff in L, D. apply is_empty_false in L, D. auto.
    + intros u m w' H. apply P in H. cbn [constructed] in H.
      apply negb_true_iff in H. apply is_empty_false in H. exact H.
Qed.

(** *** parse_list on lists of items *)

Lemma parse_list_partition_list (l : list PyVal) (w : World) :
  Z.of_nat (length l) <= MAX_ADDRESS_NUMBER ->
  exists m w',
    parse_list_partition (PyList l) w =
    (Ret (PyAddressList (map parsed_item (filter accepted l)),
          filter (fun i => negb (accepted i)) l, m), w').
Proof.
  intros L. destruct l as [|i l'].
  - exists no_parse_time, w. reflexivity.
  - unfold parse_list_partition.
    change (negb (truthy (PyList (i :: l')))) with false. cbv beta iota.
    destruct (Z.gtb_spec (Z.of_nat (length (i :: l'))) MAX_ADDRESS_NUMBER);
      [lia|].
    destruct (parse_items_partition (i :: l') [] [] no_parse_time w)
      as (m & w' & E).
    rewrite (bind_returns _ _ _ _ _ E). exists m, w'. reflexivity.
Qed.

Lemma parse_list_tuple (v : PyVal) (strict : bool) (w : World) p u m w' :
  parse_list_partition v w = (Ret (p, u, m), w') ->
  parse_list v strict true w = (Ret (WithUnparsed p u m), w').
Proof.
  intros E. unfold parse_list. rewrite (bind_returns _ _ _ _ _ E).
  reflexivity.
Qed.

Lemma parse_items_typed (l : list PyVal) :
  forallb is_address l = true ->
  forall parsed unparsed mtimes w,
    parse_items l parsed unparsed mtimes w =
    (Ret ((parsed ++ l)%list, unparsed, mtimes), w).
Proof.
  induction l as [|i l IH]; intros T parsed unparsed mtimes w.
  - simpl. rewrite app_nil_r. reflexivity.
  - simpl in T. apply andb_true_iff in T. destruct T as [Ti Tl].
    destruct i; try discriminate; cbn [parse_items];
      rewrite (IH Tl), <- app_assoc; reflexivity.
Qed.

(** X7: a list of at most 1024 objects that are already [EmailAddress] or
    [UrlAddress] instances goes through [parse_list] unchanged: it is the
    parsed collection, nothing is unparsed, the parsing time is zero, and
    neither the clock nor the grammar engine is used. *)
Theorem parse_list_typed_items (l : list PyVal) (strict : bool) (w : World) :
  forallb is_address l = true ->
  Z.of_nat (length l) <= MAX_ADDRESS_NUMBER ->
  parse_list (PyList l) strict true w =
  (Ret (WithUnparsed (PyAddressList l) [] no_parse_time), w).
Proof.
  intros T L. apply parse_list_tuple. destruct l as [|i l'].
  - reflexivity.
  - unfold parse_list_partition.
    change (negb (truthy (PyList (i :: l')))) with false. cbv beta iota.
    destruct (Z.gtb_spec (Z.of_nat (length (i :: l'))) MAX_ADDRESS_NUMBER);
      [lia|].
    unfold bind. rewrite (parse_items_typed _ T). reflexivity.
Qed.

(** X8: [parse_list] works item by item: as long as the whole list has at
    most 1024 items, the parsed and unparsed collections of a
    concatenation are the concatenations of those of its two parts. *)
Theorem parse_list_concatenation (l1 l2 : list PyVal) (strict : bool)
  (w v : World) :
  Z.of_nat (length (l1 ++ l2)) <= MAX_ADDRESS_NUMBER ->
  exists p1 u1 m1 w1 p2 u2 m2 w2 m w',
    parse_list (PyList l1) strict true w
    = (Ret (WithUnparsed (PyAddressList p1) u1 m1), w1)
    /\ parse_list (PyList l2) strict true v
       = (Ret (WithUnparsed (PyAddressList p2) u2 m2), w2)
    /\ parse_list (PyList (l1 ++ l2)) strict true w
       = (Ret (WithUnparsed (PyAddressList (p1 ++ p2)) (u1 ++ u2) m), w').
Proof.
  intros L. rewrite length_app in L.
  destruct (parse_list_partition_list l1 w) as (m1 & w1 & E1); [lia|].
  destruct (parse_list_partition_list l2 v) as (m2 & w2 & E2); [lia|].
  destruct (parse_list_partition_list (l1 ++ l2) w) as (m & w' & E).
  { rewrite length_app. lia. }
  rewrite !filter_app, map_app in E.
  do 10 eexists.
  split; [apply parse_list_tuple; exact E1|].
  split; [apply parse_list_tuple; exact E2|].
  apply parse_list_tuple. exact E.
Qed.

Lemma parse_list_returns_tuple (v : PyVal) (strict : bool) (w : World)
  p u m w' :
  parse_list v strict true w = (Ret (WithUnparsed p u m), w') ->
  parse_list_partition v w = (Ret (p, u, m), w').
Proof.
  unfold parse_list, bind.
  destruct (parse_list_partition v w) as [[[[p0 u0] m0]|e] w0];
    [|discriminate].
  cbn [fst snd]. unfold ret. intros H; inversion H; reflexivity.
Qed.

(** X9: for a list of at most 1024 items, the parsed collection holds no
    [None] or other false value; every unparsed item is an item of the
    input and is not an address instance; and every address instance of
    the input is in the parsed collection. *)
Theorem parse_list_collections (l p u : list PyVal) (strict : bool)
  (w w' : World) (m : ParseMetrics Time) :
  Z.of_nat (length l) <= MAX_ADDRESS_NUMBER ->
  parse_list (PyList l) strict true w
  = (Ret (WithUnparsed (PyAddressList p) u m), w') ->
  Forall (fun x => truthy x = true) p
  /\ (forall x, In x u -> In x l /\ is_address x = false)
  /\ (forall x, In x l -> is_address x = true -> In x p).
Proof.
  intros L R. apply parse_list_returns_tuple in R.
  destruct (parse_list_partition_list l w L) as (m0 & w0 & E).
  rewrite E in R. inversion R; subst. clear R E.
  repeat split.
  - apply Forall_forall. intros x I. apply in_map_iff in I.
    destruct I as (i & <- & I). apply filter_In in I. destruct I as [_ A].
    destruct i; try discriminate; try reflexivity. exact A.
  - apply filter_In in H. tauto.
  - apply filter_In in H. destruct H as [_ A].
    destruct x; try reflexivity; discriminate.
  - intros x I A. apply in_map_iff. exists x. split.
    + destruct x; try discriminate; reflexivity.
    + apply filter_In. split; [exact I|].
      destruct x; try discriminate; reflexivity.
Qed.

(** *** validate_address on the preparser's parts *)

Lemma plugin_rejects_returns (plugin : option Plugin) (a : string) (w : World) :
  exists b, plugin_rejects plugin (Ret a) w = (Ret b, w).
Proof.
  destruct plugin as [p|]; simpl; eexists; reflexivity.
Qed.

Lemma validate_address_runs (v : PyVal) (parts : list string) (w : World) :
  is_None v = false ->
  preparse_address v = Ret (Some parts) ->
  exists r m w',
    validate_address v w = (Ret (r, m), w')
    /\ (r = PyNone \/ r = parse_value (Str (join "@" parts)) true).
Proof.
  intros NN E.
  destruct (time_time w) as [t0 w1] eqn:T0. apply now_reads in T0.
  destruct (parse_returns (Str (join "@" parts)) true w1) as (pm & w2 & P).
  pose proof (drop_metrics_returns _ _ _ _ P) as P'. cbn [fst] in P'.
  destruct (time_time w2) as [t1 w3] eqn:T1. apply now_reads in T1.
  set (paddr := parse_value (Str (join "@" parts)) true) in *.
  unfold validate_address. rewrite NN.
  unfold bind at 1. unfold lift_outcome at 1. rewrite E.
  rewrite (bind_returns _ _ _ _ _ T0), (bind_returns _ _ _ _ _ P'),
    (bind_returns _ _ _ _ _ T1).
  destruct (is_None paddr) eqn:PN.
  { eexists _, _, _. split; [reflexivity|]. left. reflexivity. }
  apply is_None_false in PN.
  assert (NE : parts <> []).
  { intros ->. apply PN. reflexivity. }
  assert (IL : index_last parts = Ret (last parts "")).
  { destruct parts; [congruence|reflexivity]. }
  assert (IF : index_first parts = Ret (hd "" parts)).
  { destruct parts; [congruence|reflexivity]. }
  rewrite IL, IF.
  unfold bind at 1. unfold lift_outcome at 1.
  destruct (mail_exchanger_lookup (last parts "") w3) as [[ex mm] w4] eqn:L.
  apply lookup_exchanger_returns in L.
  rewrite (bind_returns _ _ _ _ _ L). cbn [fst snd].
  destruct ex as [ex|].
  2:{ eexists _, _, _. split; [reflexivity|]. left. reflexivity. }
  destruct (time_time w4) as [t2 w5] eqn:T2. apply now_reads in T2.
  destruct (time_time w5) as [t3 w6] eqn:T3. apply now_reads in T3.
  rewrite (bind_returns _ _ _ _ _ T2), (bind_returns _ _ _ _ _ T3).
  destruct (plugin_rejects_returns (plugin_for_esp ex) (hd "" parts) w6)
    as [b B].
  rewrite (bind_returns _ _ _ _ _ B).
  destruct b; eexists _, _, _; (split; [reflexivity|]); auto.
Qed.

(** *** validate_list *)

Lemma full_spec_item_runs (e : EmailAddress) (w : World) :
  full_spec_item e w =
  (match full_spec e with
   | Ret s => Ret (PyText (Str s))
   | Raise x => Raise x
   end, w).
Proof.
  unfold full_spec_item, bind, lift_outcome, ret.
  destruct (full_spec e); reflexivity.
Qed.

(** One turn of the first loop on an [EmailAddress]: it raises, or goes on
    with the address appended to one of the two lists. *)
Lemma check_parsed_step (e : EmailAddress) (rest plist ulist : list PyVal)
  (mtimes : ValidateMetrics Time) (w : World) :
  (exists x w', check_parsed (PyEmail e :: rest) plist ulist mtimes w
                = (Raise x, w'))
  \/ (exists m1 w1,
        check_parsed (PyEmail e :: rest) plist ulist mtimes w
        = check_parsed rest (plist ++ [PyEmail e]) ulist m1 w1)
  \/ (exists s m1 w1,
        full_spec e = Ret s
        /\ check_parsed (PyEmail e :: rest) plist ulist mtimes w
           = check_parsed rest plist (ulist ++ [PyText (Str s)]) m1 w1).
Proof.
  cbn [check_parsed].
  destruct (mail_exchanger_lookup (domain e) w) as [[ex mm] w1] eqn:L.
  apply lookup_exchanger_returns in L.
  rewrite (bind_returns _ _ _ _ _ L). cbn [fst snd].
  assert (Rejected : forall m0 w0,
    (exists x w', (u <- full_spec_item e ;;
                   check_parsed rest plist (ulist ++ [u]) m0) w0
                  = (Raise x, w'))
    \/ (exists s m1 w1,
          full_spec e = Ret s
          /\ (u <- full_spec_item e ;;
              check_parsed rest plist (ulist ++ [u]) m0) w0
             = check_parsed rest plist (ulist ++ [PyText (Str s)]) m1 w1)).
  { intros m0 w0. pose proof (full_spec_item_runs e w0) as F.
    destruct (full_spec e) as [s|x].
    - right. exists s, m0, w0. split; [reflexivity|].
      rewrite (bind_returns _ _ _ _ _ F). reflexivity.
    - left. exists x, w0. unfold bind. rewrite F. reflexivity. }
  destruct ex as [ex|].
  - destruct (time_time w1) as [b w2] eqn:T. apply now_reads in T.
    rewrite (bind_returns _ _ _ _ _ T).
    destruct (plugin_rejects_returns (plugin_for_esp ex) (local_part e) w2)
      as [r R].
    rewrite (bind_returns _ _ _ _ _ R).
    destruct r.
    + destruct (Rejected (add_mx mtimes mm) w2) as [H|H]; auto.
    + destruct (time_time w2) as [t w3] eqn:T'. apply now_reads in T'.
      rewrite (bind_returns _ _ _ _ _ T').
      right. left. eexists _, _. reflexivity.
  - destruct (Rejected (add_mx mtimes mm) w1) as [H|H]; auto.
Qed.

Lemma check_parsed_count (items : list PyVal) :
  forall plist ulist mtimes w p u m w',
    check_parsed items plist ulist mtimes w = (Ret (p, u, m), w') ->
    (length p + length u = length plist + length ulist + length items)%nat.
Proof.
  induction items as [|paddr rest IH]; intros plist ulist mtimes w p u m w'.
  - cbn. unfold ret. intros H; inversion H; subst. lia.
  - destruct paddr as [ |b|n|t|l|l|e|x|c];
      try (cbn; unfold raise; discriminate).
    destruct (check_parsed_step e rest plist ulist mtimes w)
      as [(x & w0 & E)|[(m1 & w1 & E)|(s & m1 & w1 & _ & E)]];
      rewrite E; [discriminate| |];
      intros H; apply IH in H; rewrite length_app in H; simpl in *; lia.
Qed.

Lemma check_parsed_not_email (items : list PyVal) (x : PyVal) :
  In x items -> is_email_address x = false ->
  forall plist ulist mtimes w,
    exists e w', check_parsed items plist ulist mtimes w = (Raise e, w').
Proof.
  induction items as [|paddr rest IH]; [intros []|].
  intros I N plist ulist mtimes w.
  destruct paddr as [ |b|n|t|l|l|e|u|c];
    try (cbn; unfold raise; eexists _, _; reflexivity).
  destruct I as [<-|I]; [discriminate|].
  destruct (check_parsed_step e rest plist ulist mtimes w)
    as [(y & w0 & E)|[(m1 & w1 & E)|(s & m1 & w1 & _ & E)]];
    rewrite E; [eexists _, _; reflexivity| |]; apply IH; assumption.
Qed.

Lemma repair_count (items : list PyVal) :
  forall plist ulist mtimes w p u m w',
    repair items plist ulist mtimes w = (Ret (p, u, m), w') ->
    (length p + length u = length plist + length ulist + length items)%nat.
Proof.
  induction items as [|unpar rest IH]; intros plist ulist mtimes w p u m w'.
  - cbn. unfold ret. intros H; inversion H; subst. lia.
  - cbn [repair]. unfold bind at 1.
    destruct (validate_address unpar w) as [[r|x] w1]; [|discriminate].
    cbv zeta. intros H. apply IH in H.
    destruct (truthy (fst r)); rewrite length_app in H; simpl in *; lia.
Qed.

(** The run of [validate_list] on a non-empty list of at most 1024
    items, up to the two loops. *)
Lemma validate_list_on_list (l : list PyVal) (as_tuple : bool) (w : World) :
  l <> [] ->
  Z.of_nat (length l) <= MAX_ADDRESS_NUMBER ->
  exists mt w1,
    validate_list (PyList l) as_tuple w =
    (r1 <- check_parsed (map parsed_item (filter accepted l)) [] [] mt ;;
     r2 <- repair (filter (fun i => negb (accepted i)) l)
             (fst (fst r1)) (snd (fst r1)) (snd r1) ;;
     if as_tuple
     then ret (WithUnparsed (PyAddressList (fst (fst r2))) (snd (fst r2))
                 (snd r2))
     else ret (OnlyParsed (PyAddressList (fst (fst r2))) (snd r2))) w1.
Proof.
  intros NE L. unfold validate_list.
  assert (T : truthy (PyList l) = true)
    by (destruct l; [congruence|reflexivity]).
  rewrite T. change (negb true) with false. cbv beta iota.
  destruct (time_time w) as [t0 w0] eqn:T0. apply now_reads in T0.
  destruct (parse_list_partition_list l w0 L) as (m & w2 & P).
  destruct (time_time w2) as [t1 w3] eqn:T1. apply now_reads in T1.
  rewrite (bind_returns _ _ _ _ _ T0), (bind_returns _ _ _ _ _ P),
    (bind_returns _ _ _ _ _ T1).
  cbn [fst snd iterate]. unfold bind at 1. unfold lift_outcome at 1.
  eexists _, w3. reflexivity.
Qed.

(** X11: when [validate_list] returns on a list of at most 1024 items,
    every item is accounted for once: the accepted collection and the
    rejected list together have as many elements as the input. *)
Theorem validate_list_partition_count (l p u : list PyVal)
  (m : ValidateMetrics Time) (w w' : World) :
  Z.of_nat (length l) <= MAX_ADDRESS_NUMBER ->
  validate_list (PyList l) true w
  = (Ret (WithUnparsed (PyAddressList p) u m), w') ->
  (length p + length u = length l)%nat.
Proof.
  intros L R. destruct l as [|i l']; [discriminate R|].
  destruct (validate_list_on_list (i :: l') true w) as (mt & w1 & E);
    [discriminate|exact L|].
  rewrite E in R. clear E. unfold bind at 1 in R.
  destruct (check_parsed _ [] [] mt w1) as [[[[p1 u1] m1]|x] w2] eqn:C;
    [|discriminate].
  cbn [fst snd] in R. unfold bind at 1 in R.
  destruct (repair _ p1 u1 m1 w2) as [[[[p2 u2] m2]|x] w3] eqn:Rp;
    [|discriminate].
  cbn [fst snd] in R. unfold ret in R. inversion R; subst.
  apply check_parsed_count in C. apply repair_count in Rp.
  pose proof (partition_lengths (i :: l')) as PL.
  simpl length in *. lia.
Qed.

(** X12: [validate_list] raises on a list of at most 1024 items that
    holds a [UrlAddress] or a string that parses as a URL: the first loop
    reads [paddr.domain], which only an [EmailAddress] has. *)
Theorem validate_list_url_raises (l : list PyVal) (x : PyVal)
  (u : UrlAddress) (as_tuple : bool) (w : World) :
  Z.of_nat (length l) <= MAX_ADDRESS_NUMBER ->
  In x l ->
  parsed_item x = PyUrl u ->
  exists e w', validate_list (PyList l) as_tuple w = (Raise e, w').
Proof.
  intros L I P.
  destruct (validate_list_on_list l as_tuple w) as (mt & w1 & E);
    [intros ->; destruct I|exact L|].
  rewrite E.
  assert (A : accepted x = true).
  { destruct x; try discriminate; try reflexivity.
    cbn in P |- *. rewrite P. reflexivity. }
  assert (J : In (PyUrl u) (map parsed_item (filter accepted l))).
  { rewrite <- P. apply in_map. apply filter_In. auto. }
  destruct (check_parsed_not_email _ _ J eq_refl [] [] mt w1) as (e & w2 & C).
  exists e, w2. unfold bind at 1. rewrite C. reflexivity.
Qed.

(** X13: for a false input (None, an empty string or list)
    [validate_list] returns the accepted collection and the metrics only,
    also when [as_tuple] is set, where [parse_list] returns both
    collections; nothing is parsed, looked up or timed. *)
Theorem validate_list_false_input (v : PyVal) (as_tuple strict : bool)
  (w : World) :
  truthy v = false ->
  validate_list v as_tuple w
  = (Ret (OnlyParsed (PyAddressList []) no_validate_time), w)
  /\ parse_list v strict true w
     = (Ret (WithUnparsed (PyAddressList []) [] no_parse_time), w).
Proof.
  intros F. split.
  - unfold validate_list. rewrite F. reflexivity.
  - unfold parse_list, parse_list_partition, bind. rewrite F. reflexivity.
Qed.

Lemma parse_list_partition_unparsed_text (t : basestring) (w : World) :
  encode_utf8 t <> "" ->
  truthy (parse_discrete_list_value t) = false ->
  exists m w',
    parse_list_partition (PyText t) w
    = (Ret (PyAddressList [], [PyText t], m), w').
Proof.
  intros N F. unfold parse_list_partition.
  assert (T : truthy (PyText t) = true).
  { simpl. apply is_empty_false in N. rewrite N. reflexivity. }
  rewrite T. change (negb true) with false. cbv beta iota.
  destruct (py_len t >? MAX_ADDRESS_LIST_LENGTH).
  - eexists _, _. reflexivity.
  - destruct (parse_discrete_list_returns t w) as (m & w' & E).
    rewrite (bind_returns _ _ _ _ _ E). cbn [fst snd]. rewrite F.
    eexists _, _. reflexivity.
Qed.

Lemma validate_address_text_returns (t : basestring)
  (x : option (list string)) (w : World) :
  preparse_address (PyText t) = Ret x ->
  exists r m w', validate_address (PyText t) w = (Ret (r, m), w').
Proof.
  intros E. destruct x as [parts|].
  - destruct (validate_address_runs (PyText t) parts w eq_refl E)
      as (r & m & w' & R & _).
    exists r, m, w'. exact R.
  - unfold validate_address, bind, lift_outcome. cbn [is_None]. rewrite E.
    eexists _, _, _. reflexivity.
Qed.

(** X17: a non-empty string that does not parse as a list is handed
    whole to [validate_address] by the second loop of [validate_list]:
    when the preparser returns, [validate_list] returns; the accepted
    collection is the result of that call when it is a true value, and
    otherwise the string itself is the one rejected item. *)
Theorem validate_list_unparsed_string (t : basestring)
  (x : option (list string)) (w : World) :
  encode_utf8 t <> "" ->
  truthy (parse_discrete_list_value t) = false ->
  preparse_address (PyText t) = Ret x ->
  exists w1 r m w2 mt,
    validate_address (PyText t) w1 = (Ret (r, m), w2)
    /\ validate_list (PyText t) true w
       = (Ret (WithUnparsed
                 (PyAddressList (if truthy r then [r] else []))
                 (if truthy r then [] else [PyText t]) mt), w2).
Proof.
  intros N F E. unfold validate_list.
  assert (T : truthy (PyText t) = true).
  { simpl. apply is_empty_false in N. rewrite N. reflexivity. }
  rewrite T. change (negb true) with false. cbv beta iota.
  destruct (time_time w) as [t0 w0] eqn:T0. apply now_reads in T0.
  destruct (parse_list_partition_unparsed_text t w0 N F) as (pm & wp & P).
  destruct (time_time wp) as [t1 w1] eqn:T1. apply now_reads in T1.
  destruct (validate_address_text_returns t x w1 E) as (r & m & w2 & V).
  exists w1, r, m, w2. eexists. split; [exact V|].
  rewrite (bind_returns _ _ _ _ _ T0), (bind_returns _ _ _ _ _ P),
    (bind_returns _ _ _ _ _ T1).
  cbn [fst snd iterate]. unfold bind at 1. unfold lift_outcome at 1.
  cbn [check_parsed]. unfold bind at 1. unfold ret at 1. cbn [fst snd].
  unfold bind at 1. cbn [repair].
  rewrite (bind_returns _ _ _ _ _ V). cbn [fst snd repair]. unfold ret.
  destruct (truthy r); reflexivity.
Qed.

(** *** AddressList *)

Lemma parse_list_parsed_runs (v : PyVal) (w : World) p u m w' :
  parse_list_partition v w = (Ret (p, u, m), w') ->
  parse_list_parsed v w = (Ret p, w').
Proof.
  intros E. unfold parse_list_parsed, parse_list.
  unfold bind at 1 2. rewrite E. reflexivity.
Qed.

(** X14: [AddressList + operand].  Another [AddressList] is appended.  A
    list of at most 1024 items is parsed first and only the items that
    parse are appended, the others being dropped without notice; a longer
    list adds nothing at all.  A string, or any other object without a
    [container], raises [AttributeError]. *)
Theorem AddressList_add_operands (self : list PyVal) (w : World) :
  (forall c,
      AddressList_add self (PyAddressList c) w
      = (Ret (PyAddressList (self ++ c)), w))
  /\ (forall l,
        Z.of_nat (length l) <= MAX_ADDRESS_NUMBER ->
        exists w',
          AddressList_add self (PyList l) w
          = (Ret (PyAddressList
                    (self ++ map parsed_item (filter accepted l))), w')
          /\ (length (map parsed_item (filter accepted l)) <= length l)%nat)
  /\ (forall l,
        MAX_ADDRESS_NUMBER < Z.of_nat (length l) ->
        AddressList_add self (PyList l) w = (Ret (PyAddressList self), w))
  /\ (forall v,
        (forall c, v <> PyAddressList c) -> (forall l, v <> PyList l) ->
        AddressList_add self v w = (Raise AttributeError, w)).
Proof.
  repeat split.
  - intros l L.
    destruct (parse_list_partition_list l w L) as (m & w' & E).
    exists w'. split.
    + unfold AddressList_add.
      rewrite (bind_returns _ _ _ _ _ (parse_list_parsed_runs _ _ _ _ _ _ E)).
      reflexivity.
    + rewrite length_map. apply filter_length_le.
  - intros l L. unfold AddressList_add.
    assert (E : parse_list_partition (PyList l) w
                = (Ret (PyAddressList [], [PyList l], no_parse_time), w)).
    { unfold parse_list_partition.
      assert (T : truthy (PyList l) = true).
      { destruct l; [|reflexivity].
        unfold MAX_ADDRESS_NUMBER in L. simpl in L. lia. }
      rewrite T. change (negb true) with false. cbv beta iota.
      destruct (Z.gtb_spec (Z.of_nat (length l)) MAX_ADDRESS_NUMBER); [|lia].
      reflexivity. }
    rewrite (bind_returns _ _ _ _ _ (parse_list_parsed_runs _ _ _ _ _ _ E)).
    unfold bind, lift_outcome, ret. cbn. rewrite app_nil_r. reflexivity.
  - intros v NA NL.
    destruct v; try reflexivity.
    + exfalso. eapply NL. reflexivity.
    + exfalso. eapply NA. reflexivity.
Qed.

Lemma collect_map {A B} (f : A -> Outcome B) (g : A -> B) (l : list A) :
  (forall x, In x l -> f x = Ret (g x)) ->
  collect f l = Ret (map g l).
Proof.
  induction l as [|x l IH]; intros H; simpl; [reflexivity|].
  rewrite (H x (or_introl eq_refl)), IH; [reflexivity|].
  intros y I. apply H. right. exact I.
Qed.

Lemma collect_member {A B} (f : A -> Outcome B) (l : list A) ys x :
  collect f l = Ret ys -> In x l -> exists y, f x = Ret y /\ In y ys.
Proof.
  intros C. apply collect_returns in C.
  induction C as [|a y l ys X F IH]; [intros []|].
  intros [<-|I].
  - exists y. split; [exact X|left; reflexivity].
  - destruct (IH I) as (z & Z & J). exists z. split; [exact Z|right; exact J].
Qed.

(** The text of an address in unicode form. *)
Lemma item_to_unicode_address (v : PyVal) :
  is_address v = true ->
  item_to_unicode v
  = Ret (Unicode (match v with
                  | PyEmail e => to_unicode e
                  | PyUrl u => url_address u
                  | _ => ""
                  end)).
Proof. destruct v; try discriminate; reflexivity. Qed.

(** X15: [AddressList.to_unicode] does not raise on a container of
    address instances: it returns the unicode join, with the delimiter, of
    the unicode forms of the elements (the empty string for the empty
    list). *)
Theorem AddressList_to_unicode_returns (c : list PyVal) (delimiter : string) :
  forallb is_address c = true ->
  AddressList_to_unicode c (Unicode delimiter)
  = Ret (Unicode
           (join delimiter
              (map (fun v => match v with
                             | PyEmail e => to_unicode e
                             | PyUrl u => url_address u
                             | _ => ""
                             end) c))).
Proof.
  intros A. unfold AddressList_to_unicode.
  set (text := fun v => match v with
                        | PyEmail e => to_unicode e
                        | PyUrl u => url_address u
                        | _ => ""
                        end).
  rewrite (collect_map item_to_unicode (fun v => Unicode (text v))).
  2:{ intros x I. apply item_to_unicode_address.
      eapply forallb_forall in A; eauto. }
  destruct c as [|x [|y c']]; try reflexivity.
  assert (D : forall l : list PyVal,
    forallb decodable (map (fun v => Unicode (text v)) l) = true).
  { induction l; simpl; auto. }
  unfold py_join.
  cbn [map is_unicode orb forallb decodable andb encode_utf8].
  rewrite (D c'), map_map. reflexivity.
Qed.

Lemma to_unicode_not_ascii (e : EmailAddress) :
  requires_non_ascii e = true -> all_ascii (to_unicode e) = false.
Proof.
  unfold requires_non_ascii, is_pure_ascii. rewrite negb_true_iff.
  intros R. unfold to_unicode.
  destruct (negb (is_empty (display_name e)));
    repeat first [rewrite all_ascii_app | progress simpl];
    rewrite R; rewrite ?andb_false_r; reflexivity.
Qed.

Lemma py_join_mixed (d : basestring) (parts : list basestring) (a b : string) :
  In (Unicode a) parts -> In (Str b) parts -> all_ascii b = false ->
  py_join d parts = Raise UnicodeError.
Proof.
  intros IU IS N.
  assert (E : existsb is_unicode parts = true).
  { apply existsb_exists. exists (Unicode a). auto. }
  assert (F : forallb decodable parts = false).
  { destruct (forallb decodable parts) eqn:F; [|reflexivity].
    rewrite forallb_forall in F. specialize (F _ IS). simpl in F. congruence. }
  destruct parts as [|p [|q parts']].
  - destruct IU.
  - destruct IU as [X|[]]. subst p. destruct IS as [X|[]]. discriminate X.
  - unfold py_join. rewrite E, F, orb_true_r, andb_false_r. reflexivity.
Qed.

(** X16: [AddressList.full_spec] raises [UnicodeError] on a container of
    address instances that holds both a [UrlAddress] and an
    [EmailAddress] whose local part is not ASCII, whatever the delimiter:
    the URL is a unicode string and the address a non-ASCII byte string,
    which the join cannot decode. *)
Theorem AddressList_full_spec_mixed (c : list PyVal) (u : UrlAddress)
  (e : EmailAddress) (delimiter : basestring) :
  forallb is_address c = true ->
  In (PyUrl u) c ->
  In (PyEmail e) c ->
  requires_non_ascii e = true ->
  AddressList_full_spec c delimiter = Raise UnicodeError.
Proof.
  intros A IU IE R. unfold AddressList_full_spec.
  destruct (collect item_full_spec c) as [parts|x] eqn:C.
  - destruct (collect_member _ _ _ _ C IU) as (yu & Yu & Ju).
    destruct (collect_member _ _ _ _ C IE) as (ye & Ye & Je).
    cbn [item_full_spec] in Yu, Ye. inversion Yu; subst yu.
    unfold full_spec in Ye. rewrite R in Ye. inversion Ye; subst ye.
    eapply py_join_mixed; eauto. apply to_unicode_not_ascii. exact R.
  - apply collect_raises in C. destruct C as (v & I & X).
    rewrite forallb_forall in A. specialize (A v I).
    destruct v as [ |b|n|t|l|l|e0|u0|c0]; try discriminate A.
    + cbn [item_full_spec] in X.
      destruct (full_spec e0) as [s|x'] eqn:F; [discriminate|].
      inversion X; subst. apply full_spec_raises in F. subst. reflexivity.
    + discriminate X.
Qed.

End MoreProperties.

(** ** The further properties on concrete inputs *)

Lemma ascii_forms_witness :
  all_ascii "john@smith.com" = true
  /\ contains_non_ascii
       (mkEmailAddress "" ("j" ++ Sample.u_diaeresis) "smith.com") = true.
Proof.
  split.
  - destruct (ascii_forms (mkEmailAddress "" "john" "Smith.COM"))
      as (H & _ & _).
    apply H. vm_compute. reflexivity.
  - destruct (ascii_forms
                (mkEmailAddress "" ("j" ++ Sample.u_diaeresis) "smith.com"))
      as (_ & _ & H).
    apply H. vm_compute. reflexivity.
Defined.

Lemma EmailAddress_eq_equivalence_witness :
  EmailAddress_eq (mkEmailAddress "" "a" "host.com")
    (PyEmail (mkEmailAddress "A" "A" "Host.COM")) 0 = (Ret true, 0)
  /\ EmailAddress_eq (mkEmailAddress "A" "A" "Host.COM")
       (PyEmail (mkEmailAddress "B" "a" "HOST.com")) 0 = (Ret true, 0).
Proof.
  destruct (EmailAddress_eq_equivalence
              (mkEmailAddress "A" "A" "Host.COM")
              (mkEmailAddress "" "a" "host.com")
              (mkEmailAddress "B" "a" "HOST.com") 0)
    as (_ & S & _ & _ & _).
  destruct (EmailAddress_eq_equivalence
              (mkEmailAddress "A" "A" "Host.COM")
              (mkEmailAddress "" "a" "host.com")
              (mkEmailAddress "B" "a" "HOST.com") 0)
    as (_ & _ & T & _ & _).
  split.
  - apply S. vm_compute. reflexivity.
  - apply T; vm_compute; reflexivity.
Defined.

Lemma eq_across_classes_witness :
  EmailAddress_eq (mkEmailAddress "" "a" "host.com")
    (PyUrl (mkUrlAddress "A@host.com")) 0 = (Ret true, 0)
  /\ UrlAddress_eq (mkUrlAddress "A@host.com")
       (PyEmail (mkEmailAddress "" "a" "host.com")) 0 = (Ret false, 0).
Proof.
  apply eq_across_classes.
  - vm_compute. reflexivity.
  - vm_compute. discriminate.
Defined.

Lemma EmailAddress_eq_other_operands_witness :
  EmailAddress_eq Sample.a_b PyNone 0 = (Ret false, 0)
  /\ (exists w', EmailAddress_eq Sample.a_b (PyText (Str "foo")) 0
                 = (Ret false, w'))
  /\ (exists w', EmailAddress_eq Sample.a_b (PyText (Str "X <A@B>")) 0
                 = (Ret true, w'))
  /\ (exists w',
        EmailAddress_eq Sample.a_b (PyText (Str "http://host.com/x")) 0
        = (Ret false, w'))
  /\ EmailAddress_eq Sample.a_b (PyInt 5) 0 = (Raise AttributeError, 0).
Proof.
  destruct (EmailAddress_eq_other_operands Sample.a_b 0)
    as (F & T & E & U & _ & _ & A).
  split; [apply F; reflexivity|].
  split; [apply T; vm_compute; reflexivity|].
  split.
  { destruct (E (Str "X <A@B>") (mkEmailAddress "X" "A" "B")) as [w' H];
      [vm_compute; reflexivity|].
    exists w'. rewrite H. vm_compute. reflexivity. }
  split.
  { destruct (U (Str "http://host.com/x") (mkUrlAddress "http://host.com/x"))
      as [w' H]; [vm_compute; reflexivity|].
    exists w'. rewrite H. vm_compute. reflexivity. }
  apply A; try reflexivity. intros; discriminate.
Defined.

Lemma lift_list_all_or_nothing_witness :
  length [PyEmail Sample.a_b; PyEmail Sample.d_e] = 2%nat
  /\ _lift_parser_result
       (TreeList [Mailbox "A" "a" "b"; Mailbox "" "" "c"])
     = Raise SyntaxError.
Proof.
  split.
  - destruct (lift_list_all_or_nothing [Mailbox "A" "a" "b"; Mailbox "D" "d" "e"])
      as (_ & H & _).
    apply H. vm_compute. reflexivity.
  - destruct (lift_list_all_or_nothing [Mailbox "A" "a" "b"; Mailbox "" "" "c"])
      as (_ & _ & H & _).
    apply H. exists (Mailbox "" "" "c"). split.
    + right. left. reflexivity.
    + vm_compute. reflexivity.
Defined.

Lemma parse_results_constructed_witness :
  parse (Str "John Smith <john@smith.com>") false 0
  = (Ret (PyEmail (mkEmailAddress "John Smith" "john" "smith.com"),
          mkParseMetrics 1), 2)
  /\ constructed (PyEmail (mkEmailAddress "John Smith" "john" "smith.com"))
     = true
  /\ local_part (mkEmailAddress "John Smith" "john" "smith.com") <> ""
  /\ domain (mkEmailAddress "John Smith" "john" "smith.com") <> "".
Proof.
  assert (P : parse (Str "John Smith <john@smith.com>") false 0
              = (Ret (PyEmail (mkEmailAddress "John Smith" "john" "smith.com"),
                      mkParseMetrics 1), 2))
    by (vm_compute; reflexivity).
  destruct (parse_results_constructed
              (Str "John Smith <john@smith.com>") false 0)
    as (C & _ & H & _).
  split; [exact P|].
  split; [exact (C _ _ _ P)|].
  exact (H _ _ _ P).
Defined.

Lemma parse_list_typed_items_witness :
  parse_list
    (PyList [PyEmail Sample.a_b; PyUrl (mkUrlAddress "http://host.com/x")])
    false true 0
  = (Ret (WithUnparsed
            (PyAddressList
               [PyEmail Sample.a_b; PyUrl (mkUrlAddress "http://host.com/x")])
            [] no_parse_time), 0).
Proof.
  apply parse_list_typed_items.
  - reflexivity.
  - vm_compute. discriminate.
Defined.

Lemma parse_list_concatenation_witness :
  exists p1 u1 m1 w1 p2 u2 m2 w2 m w',
    parse_list (PyList [PyText (Str "A <a@b>"); PyText (Str "C")])
      false true 0
    = (Ret (WithUnparsed (PyAddressList p1) u1 m1), w1)
    /\ parse_list (PyList [PyText (Str "D <d@e>"); PyInt 3]) false true 0
       = (Ret (WithUnparsed (PyAddressList p2) u2 m2), w2)
    /\ parse_list (PyList Sample.mixed_items) false true 0
       = (Ret (WithUnparsed (PyAddressList (p1 ++ p2)) (u1 ++ u2) m), w').
Proof.
  apply (parse_list_concatenation
           [PyText (Str "A <a@b>"); PyText (Str "C")]
           [PyText (Str "D <d@e>"); PyInt 3] false 0 0).
  vm_compute. discriminate.
Defined.

Lemma parse_list_collections_witness :
  Forall (fun x => truthy x = true) [PyEmail Sample.a_b; PyEmail Sample.d_e]
  /\ (forall x, In x [PyText (Str "C"); PyInt 3] ->
                In x Sample.mixed_items /\ is_address x = false)
  /\ (forall x, In x Sample.mixed_items -> is_address x = true ->
                In x [PyEmail Sample.a_b; PyEmail Sample.d_e]).
Proof.
  apply (parse_list_collections Sample.mixed_items
           [PyEmail Sample.a_b; PyEmail Sample.d_e]
           [PyText (Str "C"); PyInt 3] false 0 5 (mkParseMetrics 2)).
  - vm_compute. discriminate.
  - vm_compute. reflexivity.
Defined.

Lemma validate_list_partition_count_witness :
  (length [PyEmail (mkEmailAddress "" "john" "smith.com");
           PyEmail (mkEmailAddress "" "abcdefg" "gmail.com")]
   + length [PyText (Str "x@nowhere.invalid"); PyText (Str "foo")]
   = length [PyText (Str "a..bcdefg@gmail.com"); PyText (Str "john@smith.com");
             PyText (Str "x@nowhere.invalid"); PyText (Str "foo")])%nat.
Proof.
  apply (validate_list_partition_count
           [PyText (Str "a..bcdefg@gmail.com"); PyText (Str "john@smith.com");
            PyText (Str "x@nowhere.invalid"); PyText (Str "foo")]
           [PyEmail (mkEmailAddress "" "john" "smith.com");
            PyEmail (mkEmailAddress "" "abcdefg" "gmail.com")]
           [PyText (Str "x@nowhere.invalid"); PyText (Str "foo")]
           (mkValidateMetrics 7 6 4 2 1) 0 34).
  - vm_compute. discriminate.
  - vm_compute. reflexivity.
Defined.

Lemma validate_list_url_raises_witness :
  exists e w',
    validate_list
      (PyList [PyText (Str "john@smith.com");
               PyText (Str "http://host.com/x")]) true 0
    = (Raise e, w').
Proof.
  apply (validate_list_url_raises _ (PyText (Str "http://host.com/x"))
           (mkUrlAddress "http://host.com/x")).
  - vm_compute. discriminate.
  - right. left. reflexivity.
  - vm_compute. reflexivity.
Defined.

Lemma validate_list_false_input_witness :
  validate_list (PyText (Str "")) true 0
  = (Ret (OnlyParsed (PyAddressList []) no_validate_time), 0)
  /\ parse_list (PyText (Str "")) false true 0
     = (Ret (WithUnparsed (PyAddressList []) [] no_parse_time), 0).
Proof.
  apply validate_list_false_input. reflexivity.
Defined.

Lemma AddressList_add_operands_witness :
  (exists w',
      AddressList_add [PyEmail Sample.a_b] (PyList Sample.mixed_items) 0
      = (Ret (PyAddressList
                [PyEmail Sample.a_b; PyEmail Sample.a_b; PyEmail Sample.d_e]),
         w'))
  /\ AddressList_add [PyEmail Sample.a_b] (PyList Sample.many_items) 0
     = (Ret (PyAddressList [PyEmail Sample.a_b]), 0)
  /\ AddressList_add [PyEmail Sample.a_b] (PyText (Str "d@e")) 0
     = (Raise AttributeError, 0).
Proof.
  destruct (AddressList_add_operands [PyEmail Sample.a_b] 0)
    as (_ & L & O & A).
  split.
  - destruct (L Sample.mixed_items) as (w' & E & _).
    + vm_compute. discriminate.
    + exists w'. rewrite E. vm_compute. reflexivity.
  - split.
    + apply O. vm_compute. reflexivity.
    + apply A; intros; discriminate.
Defined.

Lemma AddressList_to_unicode_returns_witness :
  AddressList_to_unicode
    [PyEmail Sample.a_b; PyUrl (mkUrlAddress "http://host.com/x")]
    (Unicode ", ")
  = Ret (Unicode "A <a@b>, http://host.com/x").
Proof.
  rewrite AddressList_to_unicode_returns by reflexivity.
  vm_compute. reflexivity.
Defined.

Lemma AddressList_full_spec_mixed_witness :
  AddressList_full_spec
    [PyUrl (mkUrlAddress "http://host.com/x");
     PyEmail (mkEmailAddress "" ("j" ++ Sample.u_diaeresis) "smith.com")]
    (Str ", ")
  = Raise UnicodeError.
Proof.
  apply (AddressList_full_spec_mixed _
           (mkUrlAddress "http://host.com/x")
           (mkEmailAddress "" ("j" ++ Sample.u_diaeresis) "smith.com")).
  - reflexivity.
  - left. reflexivity.
  - right. left. reflexivity.
  - vm_compute. reflexivity.
Defined.

Lemma validate_list_unparsed_string_witness :
  exists w1 r m w2 mt,
    validate_address (PyText (Str "a..bcdefg@gmail.com")) w1
    = (Ret (r, m), w2)
    /\ validate_list (PyText (Str "a..bcdefg@gmail.com")) true 0
       = (Ret (WithUnparsed
                 (PyAddressList (if truthy r then [r] else []))
                 (if truthy r then [] else
                    [PyText (Str "a..bcdefg@gmail.com")]) mt), w2).
Proof.
  apply (validate_list_unparsed_string (Str "a..bcdefg@gmail.com")
           (Some ["abcdefg"; "gmail.com"]) 0).
  - discriminate.
  - vm_compute. reflexivity.
  - vm_compute. reflexivity.
Defined.
